(** * The study-plan allocator of [utils.ts]

    A shallow embedding of [distributeTasksSmartly] (and of its alias
    [distributeTasksEvenly]) together with the properties the
    specification states about it.

    Modelling conventions.
    - JavaScript numbers that hold counts, indices and days are integers
      ([Z]); [Math.ceil (a / b)] on such values is the integer ceiling.
    - A [Task] object is a record value.  The input array is taken to hold
      pairwise distinct objects, so that the assignment
      [task.dayIndex = day] followed by [distributedTasks.push(task)] is
      the push of the updated record.
    - [queues : Record<string, Task[]>] is an object used as a map from
      subject to queue.  It is an association list in property creation
      order; [Object.keys] lists array-index keys first, in ascending
      numeric order, then the other keys in creation order.  The name
      [__proto__] is not a property of its own: [queues["__proto__"] = []]
      makes the array the prototype of the object, [queues["__proto__"]]
      reads that array, and neither [Object.keys] nor [Object.values]
      lists it.  The entry that the list holds under this name is that
      array.
    - A string is false in a condition when it is empty, as [undefined]
      is.
    - The [while] loop of a day is a function with fuel that returns
      [None] when the fuel runs out; [fillDay_total] and
      [distributeTasksSmartly_run] show that the fuel handed to it by
      [distributeTasksSmartly] always suffices. *)

From Stdlib Require Import String Ascii ZArith NArith Lia Bool.
From Stdlib Require Import Decimal DecimalString DecimalZ.
From Stdlib Require Import List Permutation Sorted.
Import ListNotations.

Local Open Scope string_scope.
Local Open Scope list_scope.
Local Open Scope Z_scope.

(** ** Data model *)

(** Modelled from the spec: the [Task] type is declared in [./types], which
    is not among the sources.  Its fields are those the specification
    lists for an item and that [generatePlan] and the callers fill in;
    [color] is optional. *)
Record Task : Type := mkTask {
  id : string;
  subject : string;
  topic : string;
  isCompleted : bool;
  dayIndex : Z;
  color : option string
}.

(** [task.dayIndex = day] *)
Definition setDay (t : Task) (day : Z) : Task :=
  mkTask (id t) (subject t) (topic t) (isCompleted t) day (color t).

(** ** The [queues] object *)

Definition Queues : Type := list (string * list Task).

(** [queues[k]]; [None] is [undefined]. *)
Fixpoint objGet (q : Queues) (k : string) : option (list Task) :=
  match q with
  | [] => None
  | (k', l) :: q' => if String.eqb k' k then Some l else objGet q' k
  end.

(** [queues[k] = v]: overwrites the property when it exists, creates it
    after all existing ones otherwise.  For [__proto__] the entry is the
    array that the assignment makes the prototype of the object. *)
Fixpoint objSet (q : Queues) (k : string) (v : list Task) : Queues :=
  match q with
  | [] => [(k, v)]
  | (k', l) :: q' =>
      if String.eqb k' k then (k', v) :: q' else (k', l) :: objSet q' k v
  end.

(** An in-place change of the array stored under [k] ([push], [shift]). *)
Fixpoint objUpd (q : Queues) (k : string) (f : list Task -> list Task)
  : Queues :=
  match q with
  | [] => []
  | (k', l) :: q' =>
      if String.eqb k' k then (k', f l) :: q' else (k', l) :: objUpd q' k f
  end.

(** *** Property enumeration order *)

Definition digitValue (c : ascii) : option N :=
  let n := N_of_ascii c in
  if ((48 <=? n) && (n <=? 57))%N then Some (n - 48)%N else None.

Fixpoint digitsValue (s : string) (acc : N) : option N :=
  match s with
  | EmptyString => Some acc
  | String c s' =>
      match digitValue c with
      | Some d => digitsValue s' (10 * acc + d)%N
      | None => None
      end
  end.

(** A property name is an array index when it is the canonical decimal
    form of an integer in [0, 2^32 - 2]. *)
Definition arrayIndex (s : string) : option N :=
  match s with
  | EmptyString => None
  | String c rest =>
      if Ascii.eqb c "0"%char then
        match rest with EmptyString => Some 0%N | _ => None end
      else
        match digitsValue s 0 with
        | Some n => if (n <? 4294967295)%N then Some n else None
        | None => None
        end
  end.

Definition isArrayIndex (s : string) : bool :=
  match arrayIndex s with Some _ => true | None => false end.

Definition indexOf (s : string) : N :=
  match arrayIndex s with Some n => n | None => 0%N end.

Fixpoint insertIndexKey (k : string) (l : list string) : list string :=
  match l with
  | [] => [k]
  | k' :: l' =>
      if (indexOf k <=? indexOf k')%N then k :: l
      else k' :: insertIndexKey k l'
  end.

Definition sortIndexKeys (l : list string) : list string :=
  fold_right insertIndexKey [] l.

(** Whether a name is a property of its own once assigned: every name
    but [__proto__], which the accessor of [Object.prototype] catches. *)
Definition isOwnKey (k : string) : bool := negb (String.eqb k "__proto__").

(** [Object.keys(queues)] *)
Definition objectKeys (q : Queues) : list string :=
  let ks := filter isOwnKey (map fst q) in
  sortIndexKeys (filter isArrayIndex ks)
    ++ filter (fun k => negb (isArrayIndex k)) ks.

(** [queues[k].length > 0], false on [undefined] *)
Definition hasTasks (q : Queues) (k : string) : bool :=
  match objGet q k with
  | Some (_ :: _) => true
  | _ => false
  end.

(** [Object.values(queues).forEach(q => totalRemainingTasks += q.length)]:
    the lengths of the queues that are properties of the object; the sum
    does not depend on the enumeration order. *)
Definition sumLengths (q : Queues) : Z :=
  fold_right (fun e acc => if isOwnKey (fst e)
                           then Z.of_nat (length (snd e)) + acc else acc)
             0 q.

(** ** Step 1: grouping by subject *)

Definition includes (l : list string) (s : string) : bool :=
  existsb (String.eqb s) l.

(** [Set.prototype.add]: a set keeps its values in insertion order. *)
Definition setAdd (acc : list string) (s : string) : list string :=
  if includes acc s then acc else acc ++ [s].

(** [Array.from(new Set(tasks.map(t => t.subject)))] *)
Definition allSubjects (tasks : list Task) : list string :=
  fold_left setAdd (map subject tasks) [].

(** [queues[t.subject].push(t)] *)
Definition pushTask (q : Queues) (t : Task) : Queues :=
  objUpd q (subject t) (fun l => l ++ [t]).

Definition initQueues (tasks : list Task) : Queues :=
  let empty := fold_left (fun q s => objSet q s []) (allSubjects tasks) [] in
  fold_left pushTask tasks empty.

(** ** Step 2: the rotation *)

Definition baseRotation : list string :=
  [ "الفيزياء";
    "اللغة العربية";
    "الكيمياء";
    "اللغة الإنجليزية";
    "الأحياء والجيولوجيا" ].

(** [if (!balancedRotation.includes(s)) balancedRotation.push(s)] *)
Definition addToRotation (rot : list string) (s : string) : list string :=
  if includes rot s then rot else rot ++ [s].

Definition balancedRotation (tasks : list Task) : list string :=
  fold_left addToRotation (allSubjects tasks) baseRotation.

(** ** Step 3: day by day *)

(** The variables of the allocator while a day is being filled. *)
Record Loop : Type := mkLoop {
  queues : Queues;
  distributedTasks : list Task;
  subjectPointer : Z;
  tasksAddedToday : Z;
  totalRemainingTasks : Z;
  attempts : Z
}.

(** [Math.ceil(a / b)] for a positive divisor *)
Definition ceilDiv (a b : Z) : Z := - ((- a) / b).

(** The four statements that move the front task of [queues[k]] to the
    plan; they occur twice in the source, in the rotation branch and in
    the fallback branch.  Nothing happens when the queue is missing or
    empty. *)
Definition takeFrom (day : Z) (k : string) (s : Loop) : Loop :=
  match objGet (queues s) k with
  | Some (task :: _) =>
      mkLoop (objUpd (queues s) k (@tl Task))
             (distributedTasks s ++ [setDay task day])
             (subjectPointer s)
             (tasksAddedToday s + 1)
             (totalRemainingTasks s - 1)
             (attempts s)
  | _ => s
  end.

(** [subjectPointer = (subjectPointer + 1) % balancedRotation.length;
    attempts++] *)
Definition advance (rot : list string) (s : Loop) : Loop :=
  mkLoop (queues s) (distributedTasks s)
         ((subjectPointer s + 1) mod Z.of_nat (length rot))
         (tasksAddedToday s) (totalRemainingTasks s) (attempts s + 1).

(** [balancedRotation[subjectPointer]]; an index out of range would read
    [undefined], which as a property name is the string "undefined". *)
Definition currentSubject (rot : list string) (s : Loop) : string :=
  nth (Z.to_nat (subjectPointer s)) rot "undefined".

(** [Object.keys(queues).find(k => queues[k].length > 0)] *)
Definition anySubject (q : Queues) : option string :=
  find (hasTasks q) (objectKeys q).

(** One pass through the body of the [while] loop; the boolean tells
    whether the pass ended in [break].  The test [if (anySubject)] fails
    when [find] returns [undefined] and when it returns the empty
    string. *)
Definition whileBody (rot : list string) (day dailyTarget : Z) (s : Loop)
  : Loop * bool :=
  let s1 := takeFrom day (currentSubject rot s) s in
  let s2 := advance rot s1 in
  if (2 * Z.of_nat (length rot) <? attempts s2)
       && (tasksAddedToday s2 <? dailyTarget)
  then
    match anySubject (queues s2) with
    | Some (String c k) => (takeFrom day (String c k) s2, false)
    | _ => (s2, true)
    end
  else (s2, false).

(** [while (tasksAddedToday < dailyTarget && totalRemainingTasks > 0)] *)
Definition whileCond (dailyTarget : Z) (s : Loop) : bool :=
  (tasksAddedToday s <? dailyTarget) && (0 <? totalRemainingTasks s).

Fixpoint fillDay (fuel : nat) (rot : list string) (day dailyTarget : Z)
  (s : Loop) : option Loop :=
  if whileCond dailyTarget s then
    match fuel with
    | O => None
    | S fuel' =>
        let (s', stop) := whileBody rot day dailyTarget s in
        if stop then Some s' else fillDay fuel' rot day dailyTarget s'
    end
  else Some s.

(** What survives from one day to the next. *)
Record Alloc : Type := mkAlloc {
  aQueues : Queues;
  aDistributed : list Task;
  aPointer : Z
}.

Definition startDay (a : Alloc) : Loop :=
  mkLoop (aQueues a) (aDistributed a) (aPointer a) 0 (sumLengths (aQueues a)) 0.

Definition endDay (s : Loop) : Alloc :=
  mkAlloc (queues s) (distributedTasks s) (subjectPointer s).

(** [for (let day = 0; day < totalDays; day++)], with [n] the number of
    iterations still to run. *)
Fixpoint dayLoop (fuel : nat) (rot : list string) (totalDays : Z)
  (n : nat) (day : Z) (a : Alloc) : option Alloc :=
  match n with
  | O => Some a
  | S n' =>
      let remainingDays := totalDays - day in
      if sumLengths (aQueues a) =? 0 then Some a
      else
        let dailyTarget := ceilDiv (sumLengths (aQueues a)) remainingDays in
        match fillDay fuel rot day dailyTarget (startDay a) with
        | Some s => dayLoop fuel rot totalDays n' (day + 1) (endDay s)
        | None => None
        end
  end.

Definition distributeWithFuel (fuel : nat) (tasks : list Task)
  (totalDays : Z) : option (list Task) :=
  option_map aDistributed
    (dayLoop fuel (balancedRotation tasks) totalDays (Z.to_nat totalDays) 0
       (mkAlloc (initQueues tasks) [] 0)).

(** Passes of the [while] loop that a day can need at most. *)
Definition loopFuel (tasks : list Task) : nat :=
  (2 * length (balancedRotation tasks) + 1 + length tasks)%nat.

Definition distributeTasksSmartly (tasks : list Task) (totalDays : Z)
  : list Task :=
  match distributeWithFuel (loopFuel tasks) tasks totalDays with
  | Some plan => plan
  | None => []
  end.

Definition distributeTasksEvenly (tasks : list Task) (totalDays : Z)
  : list Task :=
  distributeTasksSmartly tasks totalDays.

(** * Notions used in the statements *)

(** Splits a conjunction into its parts, and nothing else. *)
Ltac conjs := repeat match goal with |- _ /\ _ => split end.

Definition qOf (q : Queues) (k : string) : list Task :=
  match objGet q k with Some l => l | None => [] end.

Definition flat (q : Queues) : list Task := concat (map snd q).

(** A task without its day: what remains fixed while the plan is made. *)
Definition erase (t : Task) : Task := setDay t 0.

Definition bySubject (k : string) (t : Task) : bool :=
  String.eqb (subject t) k.

Definition dayLe (a b : Task) : Prop := dayIndex a <= dayIndex b.

(** The relation between the input, the queues and the plan built so
    far: keys are distinct, a queue holds tasks of its own subject, and
    for every subject the tasks already planned followed by the tasks
    still queued are the tasks of the input, in input order. *)
Record QInv (tasks : list Task) (q : Queues) (plan : list Task) : Prop := {
  inv_keys : NoDup (map fst q);
  inv_subject : forall k, Forall (fun t => subject t = k) (qOf q k);
  inv_fifo : forall k,
    map erase (filter (bySubject k) plan) ++ map erase (qOf q k)
    = map erase (filter (bySubject k) tasks);
  inv_perm : Permutation (map erase plan ++ map erase (flat q))
                         (map erase tasks)
}.

(** A queues object given by its keys and the queue under each key. *)
Definition tabulate (g : string -> list Task) (keys : list string) : Queues :=
  map (fun s => (s, g s)) keys.

(** The invariant of the [while] loop. *)
Record DayInv (tasks : list Task) (day dailyTarget : Z) (plan0 : list Task)
  (remaining0 : Z) (s : Loop) : Prop := {
  di_queues : QInv tasks (queues s) (distributedTasks s);
  di_remaining : totalRemainingTasks s <= sumLengths (queues s);
  di_total : tasksAddedToday s + totalRemainingTasks s = remaining0;
  di_added : 0 <= tasksAddedToday s <= dailyTarget;
  di_today : exists today,
    distributedTasks s = plan0 ++ today /\
    Forall (fun t => dayIndex t = day) today /\
    Z.of_nat (length today) = tasksAddedToday s
}.

(** The passes that the loop can still make: those before the fallback
    is switched on, and afterwards one for every task of the target. *)
Definition passesLeft (rot : list string) (dailyTarget : Z) (s : Loop)
  : nat :=
  (Z.to_nat (2 * Z.of_nat (length rot) + 1 - attempts s)
   + Z.to_nat (dailyTarget - tasksAddedToday s))%nat.

(** Tasks that a plan puts on day [d], and on the days before [d]. *)
Definition assignedTo (d : Z) (plan : list Task) : Z :=
  Z.of_nat (length (filter (fun t => dayIndex t =? d) plan)).

Definition assignedBefore (d : Z) (plan : list Task) : Z :=
  Z.of_nat (length (filter (fun t => dayIndex t <? d) plan)).

(** What a plan must satisfy from day [day] on when [remaining] tasks
    are queued at the start of that day. *)
Definition paced (totalDays day remaining : Z) (plan : list Task) : Prop :=
  forall d, day <= d < totalDays ->
    assignedTo d plan
    <= ceilDiv (remaining - assignedBefore d plan) (totalDays - d).

(** A subject that is neither the empty string nor [__proto__]: a name
    that is a property of [queues] once assigned and that is true in a
    condition. *)
Definition isOrdinary (k : string) : bool :=
  negb (String.eqb k "") && isOwnKey k.

Definition ordinarySubjects (tasks : list Task) : bool :=
  forallb (fun t => isOrdinary (subject t)) tasks.

Definition ordinaryKeys (q : Queues) : Prop :=
  Forall (fun k => isOrdinary k = true) (map fst q).



(** Everything the run establishes about the plan it returns. *)
Record PlanFacts (tasks : list Task) (totalDays : Z) (plan : list Task)
  : Prop := {
  pf_inv : exists left, QInv tasks left plan;
  pf_range : Forall (fun t => 0 <= dayIndex t < totalDays) plan;
  pf_sorted : StronglySorted dayLe plan;
  pf_paced : paced totalDays 0 (Z.of_nat (length tasks)) plan
}.

(** A small input on which the statements are exercised. *)
Definition sampleTask (i s : string) (d : Z) : Task :=
  mkTask i s "" false d None.

Definition sample : list Task :=
  [ sampleTask "t1" "math" 7; sampleTask "t2" "art" 7;
    sampleTask "t3" "math" 0; sampleTask "t4" "الكيمياء" 3;
    sampleTask "t5" "math" 1 ].

(** Three tasks whose subject is the empty string. *)
Definition blank : list Task :=
  [ sampleTask "t1" "" 0; sampleTask "t2" "" 0; sampleTask "t3" "" 0 ].

(** A task whose subject is [__proto__], then a task of another
    subject. *)
Definition proto : list Task :=
  [ sampleTask "a1" "__proto__" 0; sampleTask "a2" "math" 0 ].

(** Follows the words of the specification: the distinct values of a
    list, each once, in the order in which they are first met. *)
Fixpoint firstOccurrences (l : list string) : list string :=
  match l with
  | [] => []
  | x :: l' =>
      x :: filter (fun y => negb (String.eqb y x)) (firstOccurrences l')
  end.

(** Follows the words of the specification: the five subjects of the base
    sequence, then the other subjects of the input in first-seen order. *)
Definition rotationSpec (tasks : list Task) : list string :=
  baseRotation
    ++ filter (fun s => negb (includes baseRotation s))
         (firstOccurrences (map subject tasks)).

Definition eraseQueues (q : Queues) : Queues :=
  map (fun e => (fst e, map erase (snd e))) q.

Definition eraseLoop (s : Loop) : Loop :=
  mkLoop (eraseQueues (queues s)) (distributedTasks s) (subjectPointer s)
         (tasksAddedToday s) (totalRemainingTasks s) (attempts s).

Definition eraseAlloc (a : Alloc) : Alloc :=
  mkAlloc (eraseQueues (aQueues a)) (aDistributed a) (aPointer a).

(** [n] passes through the body of the loop of a day. *)
Fixpoint passes (n : nat) (rot : list string) (day dailyTarget : Z)
  (s : Loop) : Loop :=
  match n with
  | O => s
  | S n' =>
      passes n' rot day dailyTarget (fst (whileBody rot day dailyTarget s))
  end.

(** Follows the words of the specification: the counter is back at zero
    after a pass that has added a task. *)
Definition resetOnPop (rot : list string) (day dailyTarget : Z) (s : Loop)
  : Prop :=
  tasksAddedToday s < tasksAddedToday (fst (whileBody rot day dailyTarget s))
  -> attempts (fst (whileBody rot day dailyTarget s)) = 0.

(** Follows the words of the specification: once the counter is beyond
    twice the length of the rotation, the rotation is given up, and the
    task that a pass adds is the front task of the first queue, in scan
    order, that has tasks. *)
Definition scanInsteadOfRotation (rot : list string) (day dailyTarget : Z)
  (s : Loop) : Prop :=
  2 * Z.of_nat (length rot) < attempts s ->
  forall k t r,
    anySubject (queues s) = Some k ->
    objGet (queues s) k = Some (t :: r) ->
    exists rest,
      distributedTasks (fst (whileBody rot day dailyTarget s))
      = distributedTasks s ++ setDay t day :: rest.

Definition three (p s : string) : list Task :=
  [ sampleTask (p ++ "1") s 0; sampleTask (p ++ "2") s 0;
    sampleTask (p ++ "3") s 0 ].

(** Three tasks for each of the five base subjects, fifteen in all. *)
Definition busy : list Task :=
  three "e" "اللغة الإنجليزية" ++ three "b" "الأحياء والجيولوجيا"
    ++ three "p" "الفيزياء" ++ three "a" "اللغة العربية"
    ++ three "c" "الكيمياء".

(** The only day of [distributeTasksSmartly busy 1] after [n] passes. *)
Definition busyAfter (n : nat) : Loop :=
  passes n (balancedRotation busy) 0 15
    (startDay (mkAlloc (initQueues busy) [] 0)).

(** From day [day] on, with [remaining] tasks queued when it starts,
    every day takes exactly its share. *)
Definition pacedExactly (totalDays day remaining : Z) (plan : list Task)
  : Prop :=
  forall d, day <= d < totalDays ->
    assignedTo d plan
    = ceilDiv (remaining - assignedBefore d plan) (totalDays - d).

(** * The application around the allocator ([App])

    The handlers of the [App] component that compute the next task list.
    Each is a function from the task list in the state (and the other
    state variables it reads) to the list it hands to [saveState]; the
    writes to [localStorage] and to the state of the dialogs are left
    out. *)

(** The values of [i] in [for (let i = 0; i < totalDays; i++)]. *)
Fixpoint daysFrom (i : Z) (n : nat) : list Z :=
  match n with
  | O => []
  | S n' => i :: daysFrom (i + 1) n'
  end.

Definition dayRange (totalDays : Z) : list Z :=
  daysFrom 0 (Z.to_nat totalDays).

(** [t.dayIndex === i] *)
Definition onDay (i : Z) (t : Task) : bool := dayIndex t =? i.



(** [list.sort((a, b) => a.dayIndex - b.dayIndex)].  [Array.prototype.sort]
    is stable: the result is ordered by day and tasks of the same day
    keep their order, which determines it; it is computed here by
    insertion. *)
Fixpoint insertByDay (t : Task) (l : list Task) : list Task :=
  match l with
  | [] => [t]
  | u :: l' =>
      if dayIndex t <=? dayIndex u then t :: l else u :: insertByDay t l'
  end.

Definition sortByDay (l : list Task) : list Task :=
  fold_right insertByDay [] l.

(** The decimal string of an integer, as [String(n)] and a template
    literal give it (for the integers below 10^21, which JavaScript
    prints without an exponent). *)
Definition numberToString (z : Z) : string :=
  DecimalString.NilEmpty.string_of_int (Z.to_int z).

(** [arr.map((item, index) => f(item, index))], from position [index]. *)
Fixpoint mapFrom {A B : Type} (f : A -> nat -> B) (index : nat)
  (l : list A) : list B :=
  match l with
  | [] => []
  | item :: l' => f item index :: mapFrom f (S index) l'
  end.

(** An entry of [fullCurriculum], the table of [./curriculumData] that is
    not among the sources: the two fields that [generatePlan] reads. *)
Record CurriculumItem : Type := mkItem {
  itemSubject : string;
  itemTopic : string
}.

(** [generatePlan].  The curriculum is an argument, and so is the clock:
    [clock index] is what [Date.now()] returns when the task of position
    [index] is built. *)
Definition generatePlan (fullCurriculum : list CurriculumItem)
  (clock : nat -> Z) (totalDays : Z) (startDateStr : string) : list Task :=
  let allTasks :=
    mapFrom (fun item index =>
               mkTask ("task-" ++ numberToString (Z.of_nat index) ++ "-"
                         ++ numberToString (clock index))
                      (itemSubject item) (itemTopic item) false 0 None)
            O fullCurriculum in
  distributeTasksSmartly allTasks totalDays.

Inductive PlanningMode : Type := ByDays | ByTasks.

(** [handleCreatePlan]: the tasks and the number of days handed to
    [saveState].  [tasksPerDay] is not zero: a zero divisor makes
    [finalDays] infinite in JavaScript, which the integers do not
    represent. *)
Definition handleCreatePlan (fullCurriculum : list CurriculumItem)
  (clock : nat -> Z) (planningMode : PlanningMode)
  (tasksPerDay totalDays : Z) (startDate : string) : list Task * Z :=
  let finalDays :=
    match planningMode with
    | ByTasks => ceilDiv (Z.of_nat (length fullCurriculum)) tasksPerDay
    | ByDays => totalDays
    end in
  (generatePlan fullCurriculum clock finalDays startDate, finalDays).

(** [{ ...t, isCompleted: !t.isCompleted }] *)
Definition flipCompleted (t : Task) : Task :=
  mkTask (id t) (subject t) (topic t) (negb (isCompleted t)) (dayIndex t)
         (color t).

Definition toggleTask (id0 : string) (tasks : list Task) : list Task :=
  map (fun t => if String.eqb (id t) id0 then flipCompleted t else t) tasks.

(** The argument of [handleSaveTask].  [tdId] is [None] when the object
    has no [id] (or an undefined one); [tdColor] is [None] when it has no
    [color] key, and [Some c] when it has one, with value [c]
    ([Some None] for a key that holds [undefined]). *)
Record TaskData : Type := mkTaskData {
  tdId : option string;
  tdSubject : string;
  tdTopic : string;
  tdDayIndex : Z;
  tdColor : option (option string)
}.

(** [{ ...t, ...taskData }] for a task [t] with the id of [taskData] *)
Definition applyTaskData (taskData : TaskData) (i : string) (t : Task)
  : Task :=
  mkTask i (tdSubject taskData) (tdTopic taskData) (isCompleted t)
         (tdDayIndex taskData)
         (match tdColor taskData with Some c => c | None => color t end).

(** [handleSaveTask]; [now] is the value of [Date.now()].  The branch
    [if (taskData.id)] is taken for a non-empty string. *)
Definition handleSaveTask (now : Z) (taskData : TaskData)
  (tasks : list Task) : list Task :=
  match tdId taskData with
  | Some (String c r) =>
      let i := String c r in
      sortByDay
        (map (fun t => if String.eqb (id t) i then applyTaskData taskData i t
                       else t) tasks)
  | _ =>
      let newTask :=
        mkTask ("custom-" ++ numberToString now) (tdSubject taskData)
               (tdTopic taskData) false (tdDayIndex taskData)
               (match tdColor taskData with Some c => c | None => None end) in
      sortByDay (tasks ++ [newTask])
  end.

(** [handleQuickAdd]; [trim] stands for [String.prototype.trim]. *)
Definition handleQuickAdd (trim : string -> string) (now : Z)
  (quickTopic quickSubject : string) (selectedDay : Z) (tasks : list Task)
  : list Task :=
  match trim quickTopic with
  | EmptyString => tasks
  | _ =>
      let newTask :=
        mkTask ("quick-" ++ numberToString now) quickSubject quickTopic
               false selectedDay None in
      sortByDay (tasks ++ [newTask])
  end.

Definition handleDeleteTask (id0 : string) (tasks : list Task)
  : list Task :=
  filter (fun t => negb (String.eqb (id t) id0)) tasks.


(** A [Map<number, Task[]>]: its entries in insertion order. *)
Definition DayMap : Type := list (Z * list Task).

Fixpoint mapGet (m : DayMap) (k : Z) : option (list Task) :=
  match m with
  | [] => None
  | (k', v) :: m' => if k' =? k then Some v else mapGet m' k
  end.

Fixpoint mapSet (m : DayMap) (k : Z) (v : list Task) : DayMap :=
  match m with
  | [] => [(k, v)]
  | (k', v') :: m' =>
      if k' =? k then (k', v) :: m' else (k', v') :: mapSet m' k v
  end.

(** [handleReorder] *)
Definition handleReorder (totalDays selectedDay : Z)
  (reorderedTasks tasks : list Task) : list Task :=
  let empty := fold_left (fun g i => mapSet g i []) (dayRange totalDays) [] in
  let grouped :=
    fold_left
      (fun g t =>
         if dayIndex t =? selectedDay then g
         else match mapGet g (dayIndex t) with
              | Some list => mapSet g (dayIndex t) (list ++ [t])
              | None => g
              end)
      tasks empty in
  let grouped' := mapSet grouped selectedDay reorderedTasks in
  fold_left
    (fun newAllTasks i =>
       match mapGet grouped' i with
       | Some dayTasks => newAllTasks ++ dayTasks
       | None => newAllTasks
       end)
    (dayRange totalDays) [].

(** [handleSwap]: the next task list and the next [swapSource]. *)
Definition handleSwap (swapSource : option Task) (targetTask : Task)
  (tasks : list Task) : list Task * option Task :=
  match swapSource with
  | None => (tasks, Some targetTask)
  | Some source =>
      let updated :=
        map (fun t =>
               if String.eqb (id t) (id source)
               then setDay t (dayIndex targetTask)
               else if String.eqb (id t) (id targetTask)
                    then setDay t (dayIndex source)
                    else t) tasks in
      (sortByDay updated, None)
  end.

(** [0 <= t.dayIndex < totalDays]: the task is on a day of the plan. *)
Definition inPlan (totalDays : Z) (t : Task) : bool :=
  (0 <=? dayIndex t) && (dayIndex t <? totalDays).

(** The id and the task that [generatePlan] builds for the entry at
    position [index]. *)
Definition taskId (index : nat) (now : Z) : string :=
  "task-" ++ numberToString (Z.of_nat index) ++ "-" ++ numberToString now.

Definition newTask (clock : nat -> Z) (item : CurriculumItem)
  (index : nat) : Task :=
  mkTask (taskId index (clock index)) (itemSubject item) (itemTopic item)
         false 0 None.

(** No entry of the curriculum has the empty string or [__proto__] for
    subject. *)
Definition ordinaryItems (curriculum : list CurriculumItem) : bool :=
  forallb (fun item => isOrdinary (itemSubject item)) curriculum.

(** Checks that a list given by its elements is ordered by day. *)
Ltac sorted_by_eval :=
  repeat (constructor; [|repeat constructor; unfold dayLe; simpl; lia]);
  constructor.

(** * Properties *)

(** ** The [queues] object as a map *)

Lemma objGet_split (q : Queues) (k : string) (l : list Task) :
  objGet q k = Some l ->
  exists q1 q2,
    q = q1 ++ (k, l) :: q2 /\
    forall f, objUpd q k f = q1 ++ (k, f l) :: q2.
Proof.
  induction q as [|[k' l'] q IH]; simpl; [discriminate|].
  destruct (String.eqb k' k) eqn:E.
  - apply String.eqb_eq in E. subst k'. intros [= ->].
    exists [], q. split; [reflexivity|]. intros f. reflexivity.
  - intros H. destruct (IH H) as (q1 & q2 & -> & Hupd).
    exists ((k', l') :: q1), q2. split; [reflexivity|].
    intros f. simpl. now rewrite Hupd.
Qed.

Lemma objGet_None_notin (q : Queues) (k : string) :
  objGet q k = None <-> ~ In k (map fst q).
Proof.
  induction q as [|[k' l'] q IH]; simpl; [tauto|].
  destruct (String.eqb k' k) eqn:E.
  - apply String.eqb_eq in E. split; [discriminate | intros H; exfalso; auto].
  - apply String.eqb_neq in E. rewrite IH. tauto.
Qed.

Lemma objGet_In (q : Queues) (k : string) (l : list Task) :
  NoDup (map fst q) -> In (k, l) q -> objGet q k = Some l.
Proof.
  induction q as [|[k' l'] q IH]; simpl; [tauto|].
  intros Hnd [H|H].
  - injection H as -> ->. now rewrite String.eqb_refl.
  - inversion Hnd as [|? ? Hnot Hnd']; subst.
    destruct (String.eqb k' k) eqn:E.
    + apply String.eqb_eq in E. subst k'.
      exfalso. apply Hnot. now apply (in_map fst) in H.
    + auto.
Qed.

Lemma objUpd_keys (q : Queues) (k : string) f :
  map fst (objUpd q k f) = map fst q.
Proof.
  induction q as [|[k' l'] q IH]; simpl; [reflexivity|].
  destruct (String.eqb k' k); simpl; congruence.
Qed.

Lemma objGet_objUpd (q : Queues) (k k' : string) f :
  objGet (objUpd q k f) k' =
  if String.eqb k k' then option_map f (objGet q k') else objGet q k'.
Proof.
  induction q as [|[k0 l0] q IH]; simpl.
  - now destruct (String.eqb k k').
  - destruct (String.eqb k0 k) eqn:E0; simpl.
    + apply String.eqb_eq in E0. subst k0.
      destruct (String.eqb k k'); reflexivity.
    + destruct (String.eqb k0 k') eqn:E1; [|exact IH].
      apply String.eqb_eq in E1. apply String.eqb_neq in E0.
      destruct (String.eqb k k') eqn:E2; [|reflexivity].
      apply String.eqb_eq in E2. congruence.
Qed.

Lemma qOf_objUpd (q : Queues) (k k' : string) f :
  f [] = [] ->
  qOf (objUpd q k f) k' = if String.eqb k k' then f (qOf q k') else qOf q k'.
Proof.
  intros Hf. unfold qOf. rewrite objGet_objUpd.
  destruct (String.eqb k k'); [|reflexivity].
  destruct (objGet q k'); simpl; congruence.
Qed.

Lemma sumLengths_app (q1 q2 : Queues) :
  sumLengths (q1 ++ q2) = sumLengths q1 + sumLengths q2.
Proof.
  unfold sumLengths. induction q1 as [|e q1 IH]; simpl; [reflexivity|].
  destruct (isOwnKey (fst e)); lia.
Qed.

(** The queues that [Object.values] lists hold at most all the tasks
    that are queued, and all of them when every key is a property. *)
Lemma sumLengths_le_flat (q : Queues) :
  0 <= sumLengths q <= Z.of_nat (length (flat q)).
Proof.
  unfold sumLengths, flat. induction q as [|e q IH]; simpl; [lia|].
  rewrite length_app. destruct (isOwnKey (fst e)); lia.
Qed.

Lemma sumLengths_flat (q : Queues) :
  Forall (fun k => isOwnKey k = true) (map fst q) ->
  sumLengths q = Z.of_nat (length (flat q)).
Proof.
  unfold sumLengths, flat. induction q as [|e q IH]; simpl; [reflexivity|].
  intros H. inversion H as [|? ? Hk Hq]; subst.
  rewrite Hk, length_app, IH by exact Hq. lia.
Qed.

Lemma sumLengths_nonneg (q : Queues) : 0 <= sumLengths q.
Proof. apply sumLengths_le_flat. Qed.

Lemma flat_app (q1 q2 : Queues) : flat (q1 ++ q2) = flat q1 ++ flat q2.
Proof. unfold flat. now rewrite map_app, concat_app. Qed.

Lemma sumLengths_zero_all_empty (q : Queues) :
  (forall k l, In (k, l) q -> isOwnKey k = true -> l = []) ->
  sumLengths q = 0.
Proof.
  unfold sumLengths. induction q as [|[k l] q IH]; simpl; [reflexivity|].
  intros H. rewrite IH by (intros k' l' Hin; apply H; now right).
  destruct (isOwnKey k) eqn:E; [|reflexivity].
  rewrite (H k l) by auto. reflexivity.
Qed.

(** *** [Object.keys] enumerates exactly the keys *)

Lemma insertIndexKey_In (k x : string) (l : list string) :
  In x (insertIndexKey k l) <-> x = k \/ In x l.
Proof.
  induction l as [|k' l IH]; simpl.
  - intuition congruence.
  - destruct (indexOf k <=? indexOf k')%N; simpl; [intuition congruence|].
    rewrite IH. intuition congruence.
Qed.

Lemma sortIndexKeys_In (x : string) (l : list string) :
  In x (sortIndexKeys l) <-> In x l.
Proof.
  unfold sortIndexKeys. induction l as [|k l IH]; simpl; [tauto|].
  rewrite insertIndexKey_In, IH. intuition congruence.
Qed.

Lemma objectKeys_In (q : Queues) (k : string) :
  In k (objectKeys q) <-> In k (map fst q) /\ isOwnKey k = true.
Proof.
  unfold objectKeys. rewrite in_app_iff, sortIndexKeys_In, !filter_In.
  destruct (isArrayIndex k); simpl; intuition congruence.
Qed.

Lemma anySubject_Some (q : Queues) (k : string) :
  anySubject q = Some k ->
  isOwnKey k = true /\ exists t r, objGet q k = Some (t :: r).
Proof.
  unfold anySubject. intros H. apply find_some in H as [Hk H].
  apply objectKeys_In in Hk as [_ Hk]. split; [exact Hk|].
  unfold hasTasks in H. destruct (objGet q k) as [[|t r]|]; try discriminate.
  now exists t, r.
Qed.

Lemma anySubject_None (q : Queues) :
  NoDup (map fst q) -> anySubject q = None -> sumLengths q = 0.
Proof.
  unfold anySubject. intros Hnd H.
  apply sumLengths_zero_all_empty. intros k l Hin Hown.
  assert (Hk : In k (objectKeys q)).
  { apply objectKeys_In. split; [|exact Hown].
    now apply (in_map fst) in Hin. }
  pose proof (find_none _ _ H k Hk) as Hno.
  unfold hasTasks in Hno. rewrite (objGet_In q k l Hnd Hin) in Hno.
  now destruct l.
Qed.

(** ** What a pick preserves *)

Lemma erase_setDay (t : Task) (d : Z) : erase (setDay t d) = erase t.
Proof. reflexivity. Qed.

Lemma erase_eq_setDay (a b : Task) :
  erase a = erase b -> a = setDay b (dayIndex a).
Proof.
  destruct a, b. unfold erase, setDay. simpl. intros [= -> -> -> -> ->].
  reflexivity.
Qed.

Lemma subject_setDay (t : Task) (d : Z) : subject (setDay t d) = subject t.
Proof. reflexivity. Qed.

Section Invariant.

Variable tasks : list Task.

Lemma QInv_take (q : Queues) (plan : list Task) (k : string)
  (t : Task) (r : list Task) (day : Z) :
  QInv tasks q plan -> objGet q k = Some (t :: r) ->
  QInv tasks (objUpd q k (@tl Task)) (plan ++ [setDay t day]).
Proof.
  intros [Hk Hs Hf Hp] Hget.
  assert (Hsub : subject t = k).
  { specialize (Hs k). unfold qOf in Hs. rewrite Hget in Hs.
    now inversion Hs. }
  split.
  - now rewrite objUpd_keys.
  - intros k'. rewrite qOf_objUpd by reflexivity.
    destruct (String.eqb k k'); [|apply Hs].
    specialize (Hs k'). destruct (qOf q k'); simpl; [constructor|].
    now inversion Hs.
  - intros k'. rewrite qOf_objUpd by reflexivity.
    rewrite filter_app. simpl. unfold bySubject at 2.
    rewrite subject_setDay, Hsub. specialize (Hf k').
    destruct (String.eqb k k') eqn:E.
    + apply String.eqb_eq in E. subst k'.
      unfold qOf in Hf |- *. rewrite Hget in Hf |- *. simpl in Hf |- *.
      rewrite map_app, <- app_assoc. simpl. exact Hf.
    + now rewrite app_nil_r.
  - destruct (objGet_split q k _ Hget) as (q1 & q2 & -> & Hupd).
    rewrite Hupd. rewrite flat_app in Hp |- *. unfold flat in Hp |- *.
    simpl in Hp |- *. fold (flat q1) in Hp |- *. fold (flat q2) in Hp |- *.
    rewrite <- Hp. rewrite !map_app. simpl.
    rewrite <- !app_assoc. apply Permutation_app_head. simpl.
    rewrite map_app. apply Permutation_middle.
Qed.

Lemma QInv_sumLengths (q : Queues) (plan : list Task) :
  QInv tasks q plan ->
  Z.of_nat (length plan) + Z.of_nat (length (flat q))
  = Z.of_nat (length tasks).
Proof.
  intros [_ _ _ Hp]. apply Permutation_length in Hp.
  rewrite length_app, !length_map in Hp. lia.
Qed.

End Invariant.

(** ** Grouping by subject *)

Lemma filter_none {A : Type} (f : A -> bool) (l : list A) :
  (forall x, In x l -> f x = false) -> filter f l = [].
Proof.
  induction l as [|a l IH]; simpl; [reflexivity|].
  intros H. rewrite (H a) by auto. apply IH. auto.
Qed.

Lemma includes_In (l : list string) (s : string) :
  includes l s = true <-> In s l.
Proof.
  unfold includes. rewrite existsb_exists. split.
  - intros (x & Hx & E). apply String.eqb_eq in E. now subst.
  - intros H. exists s. split; [exact H | apply String.eqb_refl].
Qed.

Lemma includes_false (l : list string) (s : string) :
  includes l s = false <-> ~ In s l.
Proof.
  rewrite <- includes_In. now destruct (includes l s).
Qed.

Lemma setAdd_fold_In (l acc : list string) (x : string) :
  In x (fold_left setAdd l acc) <-> In x acc \/ In x l.
Proof.
  revert acc. induction l as [|s l IH]; intros acc; simpl; [tauto|].
  rewrite IH. unfold setAdd. destruct (includes acc s) eqn:E.
  - apply includes_In in E. intuition congruence.
  - rewrite in_app_iff. simpl. intuition congruence.
Qed.

Lemma setAdd_fold_NoDup (l acc : list string) :
  NoDup acc -> NoDup (fold_left setAdd l acc).
Proof.
  revert acc. induction l as [|s l IH]; intros acc Hnd; simpl; [exact Hnd|].
  apply IH. unfold setAdd. destruct (includes acc s) eqn:E; [exact Hnd|].
  apply includes_false in E.
  apply NoDup_app; [exact Hnd | repeat constructor; simpl; tauto |].
  intros x Hx [<-|[]]. contradiction.
Qed.

Lemma allSubjects_NoDup (tasks : list Task) : NoDup (allSubjects tasks).
Proof. apply setAdd_fold_NoDup. constructor. Qed.

Lemma allSubjects_In (tasks : list Task) (s : string) :
  In s (allSubjects tasks) <-> In s (map subject tasks).
Proof. unfold allSubjects. rewrite setAdd_fold_In. simpl. tauto. Qed.

Lemma tabulate_keys g keys : map fst (tabulate g keys) = keys.
Proof.
  unfold tabulate. rewrite map_map. simpl. apply map_id.
Qed.

Lemma objSet_new (q : Queues) (k : string) (v : list Task) :
  ~ In k (map fst q) -> objSet q k v = q ++ [(k, v)].
Proof.
  induction q as [|[k' l'] q IH]; simpl; [reflexivity|].
  intros H. destruct (String.eqb k' k) eqn:E.
  - apply String.eqb_eq in E. exfalso. auto.
  - rewrite IH by tauto. reflexivity.
Qed.

Lemma emptyQueues_tabulate (keys : list string) (q : Queues) :
  NoDup (map fst q ++ keys) ->
  fold_left (fun q s => objSet q s []) keys q
  = q ++ tabulate (fun _ => []) keys.
Proof.
  revert q. induction keys as [|k keys IH]; intros q Hnd; simpl.
  - now rewrite app_nil_r.
  - rewrite objSet_new.
    + rewrite IH.
      * now rewrite <- app_assoc.
      * rewrite map_app. simpl. rewrite <- app_assoc. exact Hnd.
    + apply NoDup_remove_2 in Hnd. rewrite in_app_iff in Hnd. tauto.
Qed.

Lemma objUpd_tabulate g (keys : list string) (k : string) f :
  NoDup keys ->
  objUpd (tabulate g keys) k f
  = tabulate (fun s => if String.eqb s k then f (g s) else g s) keys.
Proof.
  induction keys as [|k' keys IH]; intros Hnd; simpl; [reflexivity|].
  inversion Hnd as [|? ? Hnot Hnd']; subst.
  destruct (String.eqb k' k) eqn:E.
  - f_equal. apply String.eqb_eq in E. subst k'.
    unfold tabulate. apply map_ext_in. intros s Hs.
    destruct (String.eqb s k) eqn:E'; [|reflexivity].
    apply String.eqb_eq in E'. congruence.
  - f_equal. now apply IH.
Qed.

Lemma pushTask_fold_tabulate (ts : list Task) g (keys : list string) :
  NoDup keys ->
  fold_left pushTask ts (tabulate g keys)
  = tabulate (fun s => g s ++ filter (bySubject s) ts) keys.
Proof.
  intros Hnd. revert g. induction ts as [|t ts IH]; intros g; simpl.
  - unfold tabulate. apply map_ext. intros s. now rewrite app_nil_r.
  - unfold pushTask at 2. rewrite objUpd_tabulate by exact Hnd. rewrite IH.
    unfold tabulate. apply map_ext. intros s. f_equal.
    unfold bySubject at 2. rewrite (String.eqb_sym s (subject t)).
    destruct (String.eqb (subject t) s); simpl.
    + now rewrite <- app_assoc.
    + reflexivity.
Qed.

(** The queues after step 1: one queue per distinct subject, in the order
    of first occurrence, holding the tasks of that subject in input
    order. *)
Lemma initQueues_tabulate (tasks : list Task) :
  initQueues tasks
  = tabulate (fun s => filter (bySubject s) tasks) (allSubjects tasks).
Proof.
  unfold initQueues. rewrite emptyQueues_tabulate.
  - simpl. apply pushTask_fold_tabulate, allSubjects_NoDup.
  - simpl. apply allSubjects_NoDup.
Qed.

Lemma objGet_tabulate g (keys : list string) (k : string) :
  objGet (tabulate g keys) k = if includes keys k then Some (g k) else None.
Proof.
  induction keys as [|k' keys IH]; simpl; [reflexivity|].
  rewrite (String.eqb_sym k k'). destruct (String.eqb k' k) eqn:E; simpl.
  - apply String.eqb_eq in E. now subst.
  - exact IH.
Qed.

Lemma pushTask_flat (q : Queues) (t : Task) :
  In (subject t) (map fst q) ->
  Permutation (flat (pushTask q t)) (t :: flat q).
Proof.
  intros Hin. destruct (objGet q (subject t)) as [l|] eqn:E.
  - destruct (objGet_split q _ _ E) as (q1 & q2 & -> & Hupd).
    unfold pushTask. rewrite Hupd, !flat_app. unfold flat. simpl.
    fold (flat q1). fold (flat q2). symmetry.
    replace (flat q1 ++ (l ++ [t]) ++ flat q2)
      with ((flat q1 ++ l) ++ t :: flat q2)
      by (now rewrite <- !app_assoc).
    apply Permutation_cons_app. now rewrite app_assoc.
  - apply objGet_None_notin in E. contradiction.
Qed.

Lemma pushTask_fold_flat (ts : list Task) (q : Queues) :
  (forall t, In t ts -> In (subject t) (map fst q)) ->
  Permutation (flat (fold_left pushTask ts q)) (flat q ++ ts).
Proof.
  revert q. induction ts as [|t ts IH]; intros q H; simpl.
  - now rewrite app_nil_r.
  - rewrite IH.
    + rewrite pushTask_flat by (apply H; now left).
      apply Permutation_middle.
    + intros t' Ht'. unfold pushTask. rewrite objUpd_keys. apply H. now right.
Qed.

Lemma initQueues_flat (tasks : list Task) :
  Permutation (flat (initQueues tasks)) tasks.
Proof.
  unfold initQueues. rewrite emptyQueues_tabulate by apply allSubjects_NoDup.
  simpl. rewrite pushTask_fold_flat.
  - unfold flat, tabulate. rewrite map_map. simpl.
    induction (allSubjects tasks); simpl; auto.
  - intros t Ht. rewrite tabulate_keys. apply allSubjects_In.
    now apply in_map.
Qed.

Lemma QInv_init (tasks : list Task) : QInv tasks (initQueues tasks) [].
Proof.
  split.
  - rewrite initQueues_tabulate, tabulate_keys. apply allSubjects_NoDup.
  - intros k. unfold qOf. rewrite initQueues_tabulate, objGet_tabulate.
    destruct (includes _ k); [|constructor].
    apply Forall_forall. intros t Ht. apply filter_In in Ht as [_ Ht].
    now apply String.eqb_eq in Ht.
  - intros k. simpl. unfold qOf.
    rewrite initQueues_tabulate, objGet_tabulate.
    destruct (includes _ k) eqn:E; [reflexivity|].
    apply includes_false in E. rewrite allSubjects_In in E.
    replace (filter (bySubject k) tasks) with (@nil Task); [reflexivity|].
    symmetry. apply filter_none. intros t Ht. unfold bySubject.
    destruct (String.eqb (subject t) k) eqn:E'; [|reflexivity].
    apply String.eqb_eq in E'. subst k. exfalso. apply E. now apply in_map.
  - simpl. apply Permutation_map. apply initQueues_flat.
Qed.

(** ** One day *)

Lemma takeFrom_cases (day : Z) (k : string) (s : Loop) :
  (hasTasks (queues s) k = false /\ takeFrom day k s = s) \/
  (exists t r,
      objGet (queues s) k = Some (t :: r) /\
      takeFrom day k s =
      mkLoop (objUpd (queues s) k (@tl Task))
             (distributedTasks s ++ [setDay t day])
             (subjectPointer s) (tasksAddedToday s + 1)
             (totalRemainingTasks s - 1) (attempts s)).
Proof.
  unfold takeFrom, hasTasks.
  destruct (objGet (queues s) k) as [[|t r]|]; auto.
  right. now exists t, r.
Qed.

Lemma takeFrom_attempts day k s : attempts (takeFrom day k s) = attempts s.
Proof.
  destruct (takeFrom_cases day k s) as [[_ ->]|(t & r & _ & ->)]; reflexivity.
Qed.

Lemma takeFrom_pointer day k s :
  subjectPointer (takeFrom day k s) = subjectPointer s.
Proof.
  destruct (takeFrom_cases day k s) as [[_ ->]|(t & r & _ & ->)]; reflexivity.
Qed.

Lemma takeFrom_added_le day k s :
  tasksAddedToday s <= tasksAddedToday (takeFrom day k s)
  <= tasksAddedToday s + 1.
Proof.
  destruct (takeFrom_cases day k s) as [[_ ->]|(t & r & _ & ->)]; simpl; lia.
Qed.

Lemma takeFrom_added_found day k s t r :
  objGet (queues s) k = Some (t :: r) ->
  tasksAddedToday (takeFrom day k s) = tasksAddedToday s + 1.
Proof. unfold takeFrom. now intros ->. Qed.

Lemma sumLengths_take (q : Queues) (k : string) (t : Task) (r : list Task) :
  objGet q k = Some (t :: r) ->
  sumLengths (objUpd q k (@tl Task))
  = sumLengths q - (if isOwnKey k then 1 else 0).
Proof.
  intros H. destruct (objGet_split q k _ H) as (q1 & q2 & -> & Hupd).
  rewrite Hupd, !sumLengths_app. unfold sumLengths.
  cbn [fold_right fst snd tl length]. destruct (isOwnKey k); lia.
Qed.

Section Day.

Variable tasks : list Task.
Variable rot : list string.
Variables day dailyTarget : Z.
(** The plan and the number of queued tasks when the day starts. *)
Variable plan0 : list Task.
Variable remaining0 : Z.

Lemma DayInv_take (k : string) (s : Loop) :
  DayInv tasks day dailyTarget plan0 remaining0 s ->
  tasksAddedToday s < dailyTarget ->
  DayInv tasks day dailyTarget plan0 remaining0 (takeFrom day k s).
Proof.
  intros [Hq Hr Ht Ha (today & Hp & Hd & Hl)] Hlt.
  destruct (takeFrom_cases day k s) as [[_ ->]|(t & r & Hget & ->)].
  - split; auto. now exists today.
  - split; simpl.
    + now apply QInv_take with (r := r).
    + rewrite (sumLengths_take _ _ _ _ Hget). destruct (isOwnKey k); lia.
    + lia.
    + lia.
    + exists (today ++ [setDay t day]). repeat split.
      * now rewrite Hp, app_assoc.
      * apply Forall_app. split; [exact Hd|]. now repeat constructor.
      * rewrite length_app. simpl. lia.
Qed.

Lemma DayInv_advance (s : Loop) :
  DayInv tasks day dailyTarget plan0 remaining0 s ->
  DayInv tasks day dailyTarget plan0 remaining0 (advance rot s).
Proof. intros [Hq Hr Ht Ha Hb]. split; assumption. Qed.

Lemma DayInv_body (s : Loop) :
  DayInv tasks day dailyTarget plan0 remaining0 s ->
  whileCond dailyTarget s = true ->
  DayInv tasks day dailyTarget plan0 remaining0
    (fst (whileBody rot day dailyTarget s)).
Proof.
  intros Hinv Hc. unfold whileCond in Hc.
  apply andb_true_iff in Hc as [Hc _]. apply Z.ltb_lt in Hc.
  unfold whileBody.
  set (s2 := advance rot (takeFrom day (currentSubject rot s) s)).
  assert (H2 : DayInv tasks day dailyTarget plan0 remaining0 s2)
    by now apply DayInv_advance, DayInv_take.
  destruct ((2 * Z.of_nat (length rot) <? attempts s2)
            && (tasksAddedToday s2 <? dailyTarget)) eqn:Hfb;
    [|exact H2].
  apply andb_true_iff in Hfb as [_ Hlt]. apply Z.ltb_lt in Hlt.
  destruct (anySubject (queues s2)) as [[|c k]|]; try exact H2.
  now apply DayInv_take.
Qed.

(** The [break] is taken when no queue has tasks, and also when the
    first queue that has tasks is the one named by the empty string. *)
Lemma whileBody_stop (s s' : Loop) :
  whileBody rot day dailyTarget s = (s', true) ->
  anySubject (queues s') = None \/ anySubject (queues s') = Some "".
Proof.
  unfold whileBody.
  set (s2 := advance rot (takeFrom day (currentSubject rot s) s)).
  destruct ((2 * Z.of_nat (length rot) <? attempts s2)
            && (tasksAddedToday s2 <? dailyTarget)); [|discriminate].
  destruct (anySubject (queues s2)) as [[|c k]|] eqn:E; try discriminate;
    intros [= <-]; auto.
Qed.

Lemma whileBody_decreases (s s' : Loop) :
  whileCond dailyTarget s = true ->
  whileBody rot day dailyTarget s = (s', false) ->
  (passesLeft rot dailyTarget s' < passesLeft rot dailyTarget s)%nat.
Proof.
  intros Hc. unfold whileCond in Hc.
  apply andb_true_iff in Hc as [Hc _]. apply Z.ltb_lt in Hc.
  unfold whileBody.
  set (s1 := takeFrom day (currentSubject rot s) s).
  set (s2 := advance rot s1).
  assert (Hatt : attempts s2 = attempts s + 1).
  { unfold s2, s1. simpl. now rewrite takeFrom_attempts. }
  assert (Hadd : tasksAddedToday s <= tasksAddedToday s2
                 <= tasksAddedToday s + 1).
  { unfold s2, s1. simpl. apply takeFrom_added_le. }
  destruct ((2 * Z.of_nat (length rot) <? attempts s2)
            && (tasksAddedToday s2 <? dailyTarget)) eqn:Hfb.
  - apply andb_true_iff in Hfb as [Hthr Hlt].
    apply Z.ltb_lt in Hthr, Hlt.
    destruct (anySubject (queues s2)) as [[|c k]|] eqn:Hany;
      try discriminate.
    intros [= <-]. apply anySubject_Some in Hany as (_ & t & r & Hget).
    unfold passesLeft.
    rewrite takeFrom_attempts, (takeFrom_added_found _ _ _ _ _ Hget).
    lia.
  - apply andb_false_iff in Hfb. intros [= <-]. unfold passesLeft.
    destruct Hfb as [Hthr|Hlt]; [apply Z.ltb_ge in Hthr|apply Z.ltb_ge in Hlt];
      lia.
Qed.

(** The loop of a day ends and keeps the invariant. *)
Lemma fillDay_total (fuel : nat) (s : Loop) :
  DayInv tasks day dailyTarget plan0 remaining0 s ->
  (passesLeft rot dailyTarget s <= fuel)%nat ->
  exists s',
    fillDay fuel rot day dailyTarget s = Some s' /\
    DayInv tasks day dailyTarget plan0 remaining0 s'.
Proof.
  revert s. induction fuel as [|fuel IH]; intros s Hinv Hfuel; simpl.
  - destruct (whileCond dailyTarget s) eqn:Hc.
    + exfalso. unfold whileCond in Hc.
      apply andb_true_iff in Hc as [Hc _]. apply Z.ltb_lt in Hc.
      unfold passesLeft in Hfuel. lia.
    + exists s. auto.
  - destruct (whileCond dailyTarget s) eqn:Hc; [|exists s; auto].
    pose proof (DayInv_body s Hinv Hc) as Hinv'.
    destruct (whileBody rot day dailyTarget s) as [s' stop] eqn:Hb.
    simpl in Hinv'. destruct stop.
    + exists s'. split; [reflexivity | exact Hinv'].
    + apply IH; [exact Hinv'|].
      pose proof (whileBody_decreases s s' Hc Hb). lia.
Qed.

End Day.

(** More fuel does not change the result. *)
Lemma fillDay_mono (fuel fuel' : nat) rot day dailyTarget (s r : Loop) :
  fillDay fuel rot day dailyTarget s = Some r -> (fuel <= fuel')%nat ->
  fillDay fuel' rot day dailyTarget s = Some r.
Proof.
  revert fuel' s. induction fuel as [|fuel IH]; intros fuel' s; simpl.
  - destruct (whileCond dailyTarget s) eqn:Hc; [discriminate|].
    intros H _. destruct fuel'; simpl; now rewrite Hc.
  - destruct (whileCond dailyTarget s) eqn:Hc.
    + intros H Hle. destruct fuel' as [|fuel']; [lia|]. simpl. rewrite Hc.
      destruct (whileBody rot day dailyTarget s) as [s' stop].
      destruct stop; [exact H|]. apply IH; [exact H | lia].
    + intros H _. destruct fuel'; simpl; now rewrite Hc.
Qed.

(** ** What was pushed before does not matter *)





(** ** The pacing rule *)

Lemma ceilDiv_nonneg (a b : Z) : 0 <= a -> 0 < b -> 0 <= ceilDiv a b.
Proof.
  intros Ha Hb. unfold ceilDiv.
  assert ((- a) / b <= 0); [|lia].
  apply Z.div_le_upper_bound; lia.
Qed.

Lemma ceilDiv_le_self (a b : Z) : 0 <= a -> 1 <= b -> ceilDiv a b <= a.
Proof.
  intros Ha Hb. unfold ceilDiv.
  assert (- a <= (- a) / b); [|lia].
  apply Z.div_le_lower_bound; nia.
Qed.

Lemma ceilDiv_mono (a b k : Z) :
  a <= b -> 0 < k -> ceilDiv a k <= ceilDiv b k.
Proof.
  intros Hab Hk. unfold ceilDiv.
  assert ((- b) / k <= (- a) / k) by (apply Z.div_le_mono; lia). lia.
Qed.

Lemma ceilDiv_one (a : Z) : ceilDiv a 1 = a.
Proof. unfold ceilDiv. rewrite Z.div_1_r. lia. Qed.

Lemma ceilDiv_zero (b : Z) : ceilDiv 0 b = 0.
Proof. unfold ceilDiv. change (- 0) with 0. now rewrite Zdiv_0_l. Qed.

Lemma filter_all {A : Type} (f : A -> bool) (l : list A) :
  (forall x, In x l -> f x = true) -> filter f l = l.
Proof.
  induction l as [|a l IH]; simpl; [reflexivity|].
  intros H. rewrite (H a) by auto. f_equal. apply IH. auto.
Qed.

Lemma assignedTo_app d l1 l2 :
  assignedTo d (l1 ++ l2) = assignedTo d l1 + assignedTo d l2.
Proof. unfold assignedTo. rewrite filter_app, length_app. lia. Qed.

Lemma assignedBefore_app d l1 l2 :
  assignedBefore d (l1 ++ l2) = assignedBefore d l1 + assignedBefore d l2.
Proof. unfold assignedBefore. rewrite filter_app, length_app. lia. Qed.

Lemma assignedTo_same d l :
  Forall (fun t => dayIndex t = d) l -> assignedTo d l = Z.of_nat (length l).
Proof.
  intros H. unfold assignedTo. rewrite filter_all; [reflexivity|].
  rewrite Forall_forall in H. intros x Hx. apply Z.eqb_eq. auto.
Qed.

Lemma assignedTo_other d l :
  Forall (fun t => dayIndex t <> d) l -> assignedTo d l = 0.
Proof.
  intros H. unfold assignedTo. rewrite filter_none; [reflexivity|].
  rewrite Forall_forall in H. intros x Hx. apply Z.eqb_neq. auto.
Qed.

Lemma assignedBefore_all d l :
  Forall (fun t => dayIndex t < d) l ->
  assignedBefore d l = Z.of_nat (length l).
Proof.
  intros H. unfold assignedBefore. rewrite filter_all; [reflexivity|].
  rewrite Forall_forall in H. intros x Hx. apply Z.ltb_lt. auto.
Qed.

Lemma assignedBefore_none d l :
  Forall (fun t => d <= dayIndex t) l -> assignedBefore d l = 0.
Proof.
  intros H. unfold assignedBefore. rewrite filter_none; [reflexivity|].
  rewrite Forall_forall in H. intros x Hx. apply Z.ltb_ge. auto.
Qed.

Lemma StronglySorted_app {A : Type} (R : A -> A -> Prop) (l1 l2 : list A) :
  StronglySorted R l1 -> StronglySorted R l2 ->
  (forall x y, In x l1 -> In y l2 -> R x y) ->
  StronglySorted R (l1 ++ l2).
Proof.
  induction l1 as [|a l1 IH]; simpl; intros H1 H2 H; [exact H2|].
  inversion H1 as [|? ? Hs Hf]; subst. constructor.
  - apply IH; auto.
  - apply Forall_app. split; [exact Hf|].
    apply Forall_forall. intros y Hy. apply H; auto.
Qed.

Lemma StronglySorted_same_day (d : Z) (l : list Task) :
  Forall (fun t => dayIndex t = d) l -> StronglySorted dayLe l.
Proof.
  induction 1 as [|t l Ht Hl IH]; constructor; [exact IH|].
  eapply Forall_impl; [|exact Hl]. simpl. intros t' Ht'. unfold dayLe. lia.
Qed.

(** ** The run over all days *)

Section Run.

Variable tasks : list Task.
Variable rot : list string.
Variable totalDays : Z.
Variable fuel : nat.
Hypothesis fuel_enough :
  (2 * length rot + 1 + length tasks <= fuel)%nat.

Lemma startDay_total (day : Z) (a : Alloc) :
  QInv tasks (aQueues a) (aDistributed a) ->
  1 <= totalDays - day ->
  let target := ceilDiv (sumLengths (aQueues a)) (totalDays - day) in
  exists s today,
    fillDay fuel rot day target (startDay a) = Some s /\
    QInv tasks (queues s) (distributedTasks s) /\
    distributedTasks s = aDistributed a ++ today /\
    Forall (fun t => dayIndex t = day) today /\
    Z.of_nat (length today) <= target.
Proof.
  intros Hq Hk target.
  pose proof (sumLengths_le_flat (aQueues a)) as [Hnn Hfl].
  assert (Ht0 : 0 <= target) by (apply ceilDiv_nonneg; lia).
  assert (HtR : target <= sumLengths (aQueues a))
    by (apply ceilDiv_le_self; lia).
  pose proof (QInv_sumLengths _ _ _ Hq) as Hlen.
  assert (Hinv : DayInv tasks day target (aDistributed a)
                   (sumLengths (aQueues a)) (startDay a)).
  { split; simpl; auto; try lia.
    exists []. rewrite app_nil_r. repeat split. constructor. }
  destruct (fillDay_total tasks rot day target _ _ fuel _ Hinv)
    as (s & Hrun & [Hq' Hr Hsum Hadd (today & Hp & Hd & Hl)]).
  { unfold passesLeft, startDay. cbn [attempts tasksAddedToday]. lia. }
  exists s, today. conjs; try assumption; lia.
Qed.

Lemma dayLoop_total (n : nat) :
  forall (day : Z) (a : Alloc),
    QInv tasks (aQueues a) (aDistributed a) ->
    Z.of_nat n = totalDays - day -> 0 <= day ->
    exists a' rest,
      dayLoop fuel rot totalDays n day a = Some a' /\
      QInv tasks (aQueues a') (aDistributed a') /\
      aDistributed a' = aDistributed a ++ rest /\
      Forall (fun t => day <= dayIndex t < totalDays) rest /\
      StronglySorted dayLe rest /\
      paced totalDays day (Z.of_nat (length (flat (aQueues a)))) rest.
Proof.
  induction n as [|n IH]; intros day a Hq Hn Hday; simpl.
  - exists a, []. rewrite app_nil_r. conjs; auto; try constructor.
    intros d Hd. lia.
  - destruct (sumLengths (aQueues a) =? 0) eqn:Hz.
    + exists a, []. rewrite app_nil_r. conjs; auto; try constructor.
      intros d Hd. unfold assignedTo, assignedBefore. simpl.
      apply ceilDiv_nonneg; lia.
    + destruct (startDay_total day a Hq ltac:(lia))
        as (s & today & Hrun & Hq1 & Hp1 & Hd1 & Hl1).
      rewrite Hrun.
      destruct (IH (day + 1) (endDay s) Hq1 ltac:(lia) ltac:(lia))
        as (a' & rest & Hrun' & Hq' & Hp' & Hr' & Hsort' & Hpace').
      pose proof (QInv_sumLengths _ _ _ Hq) as Hlen.
      pose proof (QInv_sumLengths _ _ _ Hq1) as Hlen1.
      rewrite Hp1, length_app in Hlen1.
      pose proof (sumLengths_le_flat (aQueues a)) as [_ Hfl].
      simpl in *.
      exists a', (today ++ rest). split; [exact Hrun'|].
      split; [exact Hq'|]. split; [|split; [|split]].
      * now rewrite Hp', Hp1, app_assoc.
      * apply Forall_app. split.
        -- eapply Forall_impl; [|exact Hd1]. simpl. intros t Ht. lia.
        -- eapply Forall_impl; [|exact Hr']. simpl. intros t Ht. lia.
      * apply StronglySorted_app; auto.
        -- now apply StronglySorted_same_day with (d := day).
        -- intros x y Hx Hy. rewrite Forall_forall in Hd1, Hr'.
           specialize (Hd1 x Hx). specialize (Hr' y Hy). simpl in *.
           unfold dayLe. lia.
      * intros d Hd. rewrite assignedTo_app, assignedBefore_app.
        destruct (Z.eq_dec d day) as [->|Hne].
        -- rewrite (assignedTo_same day today Hd1).
           rewrite (assignedTo_other day rest),
                   (assignedBefore_none day today),
                   (assignedBefore_none day rest).
           ++ rewrite Z.sub_0_r, Z.add_0_r.
              etransitivity; [exact Hl1|].
              apply ceilDiv_mono; lia.
           ++ eapply Forall_impl; [|exact Hr']. simpl. intros; lia.
           ++ eapply Forall_impl; [|exact Hd1]. simpl. intros; lia.
           ++ eapply Forall_impl; [|exact Hr']. simpl. intros; lia.
        -- rewrite (assignedTo_other d today),
                   (assignedBefore_all d today).
           ++ specialize (Hpace' d ltac:(lia)).
              replace (Z.of_nat (length (flat (aQueues a)))
                       - (Z.of_nat (length today) + assignedBefore d rest))
                with (Z.of_nat (length (flat (queues s)))
                      - assignedBefore d rest) by lia.
              lia.
           ++ eapply Forall_impl; [|exact Hd1]. simpl. intros; lia.
           ++ eapply Forall_impl; [|exact Hd1]. simpl. intros; lia.
Qed.


End Run.

Lemma dayLoop_mono (fuel fuel' : nat) rot totalDays (n : nat) :
  (fuel <= fuel')%nat ->
  forall day a r,
    dayLoop fuel rot totalDays n day a = Some r ->
    dayLoop fuel' rot totalDays n day a = Some r.
Proof.
  intros Hle. induction n as [|n IH]; intros day a r; simpl; [auto|].
  destruct (sumLengths (aQueues a) =? 0); [auto|].
  destruct (fillDay fuel _ _ _ _) as [s|] eqn:E; [|discriminate].
  rewrite (fillDay_mono _ _ _ _ _ _ _ E Hle). apply IH.
Qed.

(** ** The plan *)

Lemma distributeWithFuel_total (tasks : list Task) (totalDays : Z)
  (fuel : nat) :
  (loopFuel tasks <= fuel)%nat ->
  exists plan,
    distributeWithFuel fuel tasks totalDays = Some plan /\
    PlanFacts tasks totalDays plan.
Proof.
  intros Hfuel. unfold distributeWithFuel.
  destruct (Z_le_gt_dec totalDays 0) as [Hneg|Hpos].
  - replace (Z.to_nat totalDays) with O by lia. simpl.
    exists []. split; [reflexivity|].
    split.
    + exists (initQueues tasks). apply QInv_init.
    + constructor.
    + constructor.
    + intros d Hd. lia.
  - destruct (dayLoop_total tasks (balancedRotation tasks) totalDays fuel
                Hfuel (Z.to_nat totalDays) 0
                (mkAlloc (initQueues tasks) [] 0))
      as (a' & rest & Hrun & Hq & Hp & Hr & Hs & Hpace).
    + apply QInv_init.
    + lia.
    + lia.
    + rewrite Hrun. simpl in *. subst rest.
      exists (aDistributed a'). split; [reflexivity|].
      split; auto.
      * now exists (aQueues a').
      * pose proof (QInv_sumLengths _ _ _ (QInv_init tasks)) as Hlen.
        simpl in Hlen. now rewrite <- Hlen.
Qed.

Lemma distributeTasksSmartly_run (tasks : list Task) (totalDays : Z) :
  distributeWithFuel (loopFuel tasks) tasks totalDays
  = Some (distributeTasksSmartly tasks totalDays).
Proof.
  unfold distributeTasksSmartly.
  destruct (distributeWithFuel_total tasks totalDays (loopFuel tasks))
    as (plan & -> & _); [lia | reflexivity].
Qed.

Lemma distributeTasksSmartly_facts (tasks : list Task) (totalDays : Z) :
  PlanFacts tasks totalDays (distributeTasksSmartly tasks totalDays).
Proof.
  destruct (distributeWithFuel_total tasks totalDays (loopFuel tasks))
    as (plan & Hrun & Hfacts); [lia|].
  rewrite distributeTasksSmartly_run in Hrun. now injection Hrun as ->.
Qed.

Lemma id_erase (l : list Task) : map id (map erase l) = map id l.
Proof. rewrite map_map. reflexivity. Qed.

(** ** Conservation *)

(** C1: the plan can miss tasks of the input.  With three tasks whose
    subject is the empty string and one day, the fallback finds the queue
    named by the empty string, takes the name for false and ends the day
    with "t3" still queued; with a task of subject [__proto__] and one
    of another subject, the second task is never counted and never
    planned. *)
Theorem tasks_left_out :
  map id (distributeTasksSmartly blank 1) = ["t1"; "t2"] /\
  map id (distributeTasksSmartly proto 1) = ["a1"] /\
  ~ Permutation (map id (distributeTasksSmartly blank 1)) (map id blank) /\
  ~ Permutation (map id (distributeTasksSmartly proto 1)) (map id proto).
Proof.
  assert (E1 : map id (distributeTasksSmartly blank 1) = ["t1"; "t2"])
    by (vm_compute; reflexivity).
  assert (E2 : map id (distributeTasksSmartly proto 1) = ["a1"])
    by (vm_compute; reflexivity).
  conjs.
  - exact E1.
  - exact E2.
  - rewrite E1. intros H. apply Permutation_length in H. discriminate.
  - rewrite E2. intros H. apply Permutation_length in H. discriminate.
Qed.

(** ** Pacing *)

(** C2: on every day [d] of the plan, the tasks put on [d] are at most
    the ceiling of the tasks not yet planned when [d] starts (all tasks
    but those on earlier days) over the days left. *)
Theorem pacing_bound (tasks : list Task) (totalDays d : Z) :
  0 < totalDays -> 0 <= d < totalDays ->
  let plan := distributeTasksSmartly tasks totalDays in
  assignedTo d plan
  <= ceilDiv (Z.of_nat (length tasks) - assignedBefore d plan)
             (totalDays - d).
Proof.
  intros _ Hd plan.
  destruct (distributeTasksSmartly_facts tasks totalDays) as [_ _ _ Hp].
  now apply Hp.
Qed.

Lemma pacing_bound_witness :
  let plan := distributeTasksSmartly sample 2 in
  assignedTo 1 plan
  <= ceilDiv (Z.of_nat (length sample) - assignedBefore 1 plan) (2 - 1).
Proof. apply (pacing_bound sample 2 1); lia. Defined.

(** ** Order within a subject *)

(** C3: a task can be planned while a later task of the same subject is
    not.  In [blank], "t1" precedes "t3" and both have the same subject;
    with one day, "t1" is in the plan, on day 0, and "t3" is not in the
    plan, whatever its day. *)
Theorem later_task_left_out :
  let plan := distributeTasksSmartly blank 1 in
  blank = [sampleTask "t1" "" 0; sampleTask "t2" "" 0;
           sampleTask "t3" "" 0] /\
  In (setDay (sampleTask "t1" "" 0) 0) plan /\
  ~ In "t3" (map id plan) /\
  forall d, ~ In (setDay (sampleTask "t3" "" 0) d) plan.
Proof.
  intros plan.
  assert (E : plan = [sampleTask "t1" "" 0; sampleTask "t2" "" 0])
    by (vm_compute; reflexivity).
  rewrite E. conjs.
  - reflexivity.
  - now left.
  - simpl. intuition discriminate.
  - intros d [H|[H|[]]]; discriminate H.
Qed.

(** ** Days of the plan *)






(** ** No days *)

(** C6: for [totalDays <= 0] the day loop makes no iteration (the run
    ends without a single pass of the inner loop, so with no fuel at
    all) and the plan is empty: no task is given a day. *)
Theorem no_days_no_plan (tasks : list Task) (totalDays : Z) :
  totalDays <= 0 ->
  Z.to_nat totalDays = O /\
  (forall fuel, distributeWithFuel fuel tasks totalDays = Some []) /\
  distributeTasksSmartly tasks totalDays = [].
Proof.
  intros Hneg.
  assert (Hn : Z.to_nat totalDays = O) by lia.
  assert (Hrun : forall fuel,
             distributeWithFuel fuel tasks totalDays = Some []).
  { intros fuel. unfold distributeWithFuel. now rewrite Hn. }
  conjs; auto.
  unfold distributeTasksSmartly. now rewrite Hrun.
Qed.

Lemma no_days_no_plan_witness :
  Z.to_nat (-3) = O /\
  (forall fuel, distributeWithFuel fuel sample (-3) = Some []) /\
  distributeTasksSmartly sample (-3) = [].
Proof. apply (no_days_no_plan sample (-3)). lia. Defined.

(** ** Redistribution *)

(** C8: [distributeTasksEvenly], which the redistribute action calls, is
    [distributeTasksSmartly]: same plan for every task list and every
    number of days. *)
Theorem redistribute_is_generate (tasks : list Task) (totalDays : Z) :
  distributeTasksEvenly tasks totalDays
  = distributeTasksSmartly tasks totalDays.
Proof. reflexivity. Qed.

(** ** Termination *)

(** C10: the run ends for every task list and every number of days: with
    [loopFuel tasks] passes allowed to the loop of each day, or with any
    larger allowance, it returns the plan, and the plan is the same. *)
Theorem termination (tasks : list Task) (totalDays : Z) (fuel : nat) :
  (loopFuel tasks <= fuel)%nat ->
  distributeWithFuel fuel tasks totalDays
  = Some (distributeTasksSmartly tasks totalDays).
Proof.
  intros Hle. pose proof (distributeTasksSmartly_run tasks totalDays) as H.
  unfold distributeWithFuel in *.
  destruct (dayLoop (loopFuel tasks) _ _ _ _ _) as [a|] eqn:E;
    [|discriminate].
  now rewrite (dayLoop_mono _ _ _ _ _ Hle _ _ _ E).
Qed.

Lemma termination_witness :
  distributeWithFuel 100 sample 2 = Some (distributeTasksSmartly sample 2).
Proof. apply (termination sample 2 100). vm_compute. lia. Defined.

(** ** The scenarios of the specification *)

Example three_subjects_one_day :
  map (fun t => (id t, dayIndex t))
    (distributeTasksSmartly
       [sampleTask "1" "A" 0; sampleTask "2" "B" 0; sampleTask "3" "C" 0] 1)
  = [("1", 0); ("2", 0); ("3", 0)].
Proof. vm_compute. reflexivity. Qed.

Example one_subject_five_days :
  map dayIndex
    (distributeTasksSmartly (repeat (sampleTask "x" "A" 9) 10) 5)
  = [0; 0; 1; 1; 2; 2; 3; 3; 4; 4].
Proof. vm_compute. reflexivity. Qed.

Example hundred_and_one_tasks_fifty_days :
  let plan :=
    distributeTasksSmartly (repeat (sampleTask "x" "A" 0) 101) 50 in
  assignedTo 0 plan = 3 /\ assignedTo 1 plan = 2 /\
  assignedTo 49 plan = 2 /\ length plan = 101%nat.
Proof. vm_compute. conjs; reflexivity. Qed.

(** Array-index keys come first in [Object.keys], in numeric order. *)
Example objectKeys_order :
  objectKeys [("b", []); ("10", []); ("a", []); ("2", []); ("01", [])]
  = ["2"; "10"; "b"; "a"; "01"].
Proof. vm_compute. reflexivity. Qed.

(** ** The pointer stays inside the rotation *)

Lemma setAdd_fold_length (l acc : list string) :
  (length acc <= length (fold_left setAdd l acc))%nat.
Proof.
  revert acc. induction l as [|s l IH]; intros acc; simpl; [lia|].
  etransitivity; [|apply IH]. unfold setAdd.
  destruct (includes acc s); [lia|]. rewrite length_app. simpl. lia.
Qed.

Lemma balancedRotation_length (tasks : list Task) :
  (5 <= length (balancedRotation tasks))%nat.
Proof.
  unfold balancedRotation. change addToRotation with setAdd.
  apply (setAdd_fold_length (allSubjects tasks) baseRotation).
Qed.

Lemma whileBody_pointer rot day dailyTarget (s : Loop) :
  rot <> [] ->
  0 <= subjectPointer (fst (whileBody rot day dailyTarget s))
    < Z.of_nat (length rot).
Proof.
  intros Hrot. unfold whileBody.
  set (s2 := advance rot (takeFrom day (currentSubject rot s) s)).
  assert (H2 : 0 <= subjectPointer s2 < Z.of_nat (length rot)).
  { unfold s2. simpl. apply Z.mod_pos_bound. destruct rot; simpl in *;
      [congruence | lia]. }
  destruct (_ && _); [|exact H2].
  destruct (anySubject (queues s2)) as [[|c k]|]; cbn [fst];
    rewrite ?takeFrom_pointer; exact H2.
Qed.

(** ** The rotation *)

Lemma filter_filter' {A : Type} (f g : A -> bool) (l : list A) :
  filter f (filter g l) = filter (fun x => g x && f x) l.
Proof.
  induction l as [|a l IH]; simpl; [reflexivity|].
  destruct (g a); simpl; [|exact IH].
  destruct (f a); now rewrite IH.
Qed.

Lemma includes_app (l1 l2 : list string) (s : string) :
  includes (l1 ++ l2) s = includes l1 s || includes l2 s.
Proof. unfold includes. apply existsb_app. Qed.

Lemma setAdd_fold_firstOccurrences (l acc : list string) :
  fold_left setAdd l acc
  = acc ++ filter (fun y => negb (includes acc y)) (firstOccurrences l).
Proof.
  revert acc. induction l as [|x l IH]; intros acc; simpl.
  - now rewrite app_nil_r.
  - rewrite IH. unfold setAdd. destruct (includes acc x) eqn:E; simpl.
    + f_equal. rewrite filter_filter'. apply filter_ext. intros y.
      destruct (String.eqb y x) eqn:Eyx; simpl; [|reflexivity].
      apply String.eqb_eq in Eyx. subst y. now rewrite E.
    + rewrite <- app_assoc. simpl. do 2 f_equal.
      rewrite filter_filter'. apply filter_ext. intros y.
      rewrite includes_app. unfold includes at 2. simpl.
      rewrite (String.eqb_sym y x), orb_false_r, negb_orb.
      apply andb_comm.
Qed.

Lemma allSubjects_firstOccurrences (tasks : list Task) :
  allSubjects tasks = firstOccurrences (map subject tasks).
Proof.
  unfold allSubjects. rewrite setAdd_fold_firstOccurrences. simpl.
  apply filter_all. reflexivity.
Qed.

Lemma firstOccurrences_NoDup (l : list string) :
  NoDup l -> firstOccurrences l = l.
Proof.
  induction 1 as [|x l Hx Hl IH]; simpl; [reflexivity|].
  rewrite IH. f_equal. apply filter_all. intros y Hy.
  destruct (String.eqb y x) eqn:E; [|reflexivity].
  apply String.eqb_eq in E. congruence.
Qed.

Lemma balancedRotation_spec (tasks : list Task) :
  balancedRotation tasks = rotationSpec tasks.
Proof.
  unfold balancedRotation, rotationSpec.
  change addToRotation with setAdd.
  rewrite setAdd_fold_firstOccurrences.
  rewrite (firstOccurrences_NoDup _ (allSubjects_NoDup tasks)).
  now rewrite allSubjects_firstOccurrences.
Qed.

(** C7: the rotation is the five base subjects in their fixed order,
    followed by the subjects of the input that are not among the five,
    each once, in the order of their first occurrence; so every subject
    of the input is in the rotation. *)
Theorem rotation_order (tasks : list Task) :
  let extra := filter (fun s => negb (includes baseRotation s))
                 (firstOccurrences (map subject tasks)) in
  balancedRotation tasks = baseRotation ++ extra /\
  length baseRotation = 5%nat /\
  NoDup extra /\
  (forall s, In s extra <->
             In s (map subject tasks) /\ ~ In s baseRotation) /\
  (forall t, In t tasks -> In (subject t) (balancedRotation tasks)).
Proof.
  intros extra.
  assert (Hin : forall s, In s extra <->
                  In s (map subject tasks) /\ ~ In s baseRotation).
  { intros s. unfold extra.
    rewrite filter_In, <- allSubjects_firstOccurrences, allSubjects_In.
    rewrite negb_true_iff, includes_false. tauto. }
  conjs.
  - apply balancedRotation_spec.
  - reflexivity.
  - unfold extra. rewrite <- allSubjects_firstOccurrences.
    apply NoDup_filter, allSubjects_NoDup.
  - exact Hin.
  - intros t Ht. rewrite balancedRotation_spec. unfold rotationSpec.
    fold extra. apply in_or_app.
    destruct (includes baseRotation (subject t)) eqn:E.
    + left. now apply includes_In.
    + right. apply Hin. split; [now apply in_map|].
      now apply includes_false.
Qed.

(** ** Days that the tasks already carry *)

Lemma eraseQueues_keys (q : Queues) : map fst (eraseQueues q) = map fst q.
Proof. unfold eraseQueues. rewrite map_map. reflexivity. Qed.

Lemma objGet_erase (q : Queues) (k : string) :
  objGet (eraseQueues q) k = option_map (map erase) (objGet q k).
Proof.
  induction q as [|[k' l] q IH]; simpl; [reflexivity|].
  now destruct (String.eqb k' k).
Qed.

Lemma objUpd_erase (q : Queues) (k : string) :
  objUpd (eraseQueues q) k (@tl Task) = eraseQueues (objUpd q k (@tl Task)).
Proof.
  induction q as [|[k' l] q IH]; simpl; [reflexivity|].
  destruct (String.eqb k' k); simpl.
  - now destruct l.
  - now rewrite IH.
Qed.

Lemma sumLengths_erase (q : Queues) :
  sumLengths (eraseQueues q) = sumLengths q.
Proof.
  unfold sumLengths. induction q as [|[k l] q IH]; simpl; [reflexivity|].
  now rewrite length_map, IH.
Qed.

Lemma hasTasks_erase (q : Queues) (k : string) :
  hasTasks (eraseQueues q) k = hasTasks q k.
Proof.
  unfold hasTasks. rewrite objGet_erase.
  now destruct (objGet q k) as [[|t r]|].
Qed.

Lemma find_pointwise {A : Type} (f g : A -> bool) (l : list A) :
  (forall x, f x = g x) -> find f l = find g l.
Proof.
  intros H. induction l as [|a l IH]; simpl; [reflexivity|].
  now rewrite H, IH.
Qed.

Lemma anySubject_erase (q : Queues) :
  anySubject (eraseQueues q) = anySubject q.
Proof.
  unfold anySubject, objectKeys. rewrite eraseQueues_keys.
  apply find_pointwise. intros k. apply hasTasks_erase.
Qed.

Lemma takeFrom_erase (day : Z) (k : string) (s : Loop) :
  takeFrom day k (eraseLoop s) = eraseLoop (takeFrom day k s).
Proof.
  unfold takeFrom. simpl. rewrite objGet_erase.
  destruct (objGet (queues s) k) as [[|t r]|]; simpl; try reflexivity.
  unfold eraseLoop. simpl. now rewrite objUpd_erase.
Qed.

Lemma whileBody_erase rot day dailyTarget (s : Loop) :
  whileBody rot day dailyTarget (eraseLoop s)
  = (eraseLoop (fst (whileBody rot day dailyTarget s)),
     snd (whileBody rot day dailyTarget s)).
Proof.
  unfold whileBody.
  change (currentSubject rot (eraseLoop s)) with (currentSubject rot s).
  rewrite takeFrom_erase.
  set (s1 := takeFrom day (currentSubject rot s) s).
  change (advance rot (eraseLoop s1)) with (eraseLoop (advance rot s1)).
  set (s2 := advance rot s1).
  change (attempts (eraseLoop s2)) with (attempts s2).
  change (tasksAddedToday (eraseLoop s2)) with (tasksAddedToday s2).
  change (queues (eraseLoop s2)) with (eraseQueues (queues s2)).
  rewrite anySubject_erase.
  destruct ((2 * Z.of_nat (length rot) <? attempts s2)
            && (tasksAddedToday s2 <? dailyTarget)); [|reflexivity].
  destruct (anySubject (queues s2)) as [[|c k]|]; try reflexivity.
  now rewrite takeFrom_erase.
Qed.

Lemma fillDay_erase (fuel : nat) rot day dailyTarget (s : Loop) :
  fillDay fuel rot day dailyTarget (eraseLoop s)
  = option_map eraseLoop (fillDay fuel rot day dailyTarget s).
Proof.
  revert s. induction fuel as [|fuel IH]; intros s; simpl;
    change (whileCond dailyTarget (eraseLoop s))
      with (whileCond dailyTarget s);
    destruct (whileCond dailyTarget s); try reflexivity.
  rewrite whileBody_erase.
  destruct (whileBody rot day dailyTarget s) as [s' stop]. simpl.
  destruct stop; [reflexivity | apply IH].
Qed.

Lemma dayLoop_erase (fuel : nat) rot totalDays (n : nat) :
  forall day a,
    dayLoop fuel rot totalDays n day (eraseAlloc a)
    = option_map eraseAlloc (dayLoop fuel rot totalDays n day a).
Proof.
  induction n as [|n IH]; intros day a; simpl; [reflexivity|].
  rewrite sumLengths_erase.
  destruct (sumLengths (aQueues a) =? 0); [reflexivity|].
  change (startDay (eraseAlloc a)) with
    (mkLoop (eraseQueues (aQueues a)) (aDistributed a) (aPointer a) 0
            (sumLengths (eraseQueues (aQueues a))) 0).
  rewrite sumLengths_erase.
  change (mkLoop (eraseQueues (aQueues a)) (aDistributed a) (aPointer a) 0
            (sumLengths (aQueues a)) 0) with (eraseLoop (startDay a)).
  rewrite fillDay_erase.
  destruct (fillDay fuel rot day _ (startDay a)) as [s|]; simpl;
    [|reflexivity].
  apply (IH (day + 1) (endDay s)).
Qed.

Lemma subjects_erase (tasks : list Task) :
  map subject (map erase tasks) = map subject tasks.
Proof. rewrite map_map. reflexivity. Qed.

Lemma allSubjects_erase (tasks : list Task) :
  allSubjects (map erase tasks) = allSubjects tasks.
Proof. unfold allSubjects. now rewrite subjects_erase. Qed.

Lemma balancedRotation_erase (tasks : list Task) :
  balancedRotation (map erase tasks) = balancedRotation tasks.
Proof. unfold balancedRotation. now rewrite allSubjects_erase. Qed.

Lemma filter_bySubject_erase (k : string) (l : list Task) :
  filter (bySubject k) (map erase l) = map erase (filter (bySubject k) l).
Proof.
  induction l as [|t l IH]; simpl; [reflexivity|].
  change (bySubject k (erase t)) with (bySubject k t).
  destruct (bySubject k t); simpl; now rewrite IH.
Qed.

Lemma initQueues_erase (tasks : list Task) :
  initQueues (map erase tasks) = eraseQueues (initQueues tasks).
Proof.
  rewrite !initQueues_tabulate, allSubjects_erase.
  unfold eraseQueues, tabulate. rewrite map_map. simpl.
  apply map_ext. intros s. now rewrite filter_bySubject_erase.
Qed.

Lemma distributeWithFuel_erase (fuel : nat) (tasks : list Task)
  (totalDays : Z) :
  distributeWithFuel fuel (map erase tasks) totalDays
  = distributeWithFuel fuel tasks totalDays.
Proof.
  unfold distributeWithFuel.
  rewrite balancedRotation_erase, initQueues_erase.
  change (mkAlloc (eraseQueues (initQueues tasks)) [] 0)
    with (eraseAlloc (mkAlloc (initQueues tasks) [] 0)).
  rewrite dayLoop_erase. now destruct (dayLoop _ _ _ _ _ _).
Qed.

Lemma distributeTasksSmartly_erase (tasks : list Task) (totalDays : Z) :
  distributeTasksSmartly (map erase tasks) totalDays
  = distributeTasksSmartly tasks totalDays.
Proof.
  unfold distributeTasksSmartly, loopFuel.
  now rewrite balancedRotation_erase, length_map, distributeWithFuel_erase.
Qed.

(** C9: the plan does not depend on the days that the tasks of the input
    already carry: two inputs that agree up to these days get the same
    plan, so the same sequence of ids and days.  A second run on the same
    array, whose tasks then carry the days of the first run, is such a
    pair. *)
Theorem prior_days_ignored (tasks1 tasks2 : list Task) (totalDays : Z) :
  map erase tasks1 = map erase tasks2 ->
  distributeTasksSmartly tasks1 totalDays
  = distributeTasksSmartly tasks2 totalDays /\
  map (fun t => (id t, dayIndex t)) (distributeTasksSmartly tasks1 totalDays)
  = map (fun t => (id t, dayIndex t))
      (distributeTasksSmartly tasks2 totalDays).
Proof.
  intros H.
  assert (E : distributeTasksSmartly tasks1 totalDays
              = distributeTasksSmartly tasks2 totalDays).
  { rewrite <- (distributeTasksSmartly_erase tasks1),
            <- (distributeTasksSmartly_erase tasks2).
    now rewrite H. }
  split; [exact E | now rewrite E].
Qed.

Lemma prior_days_ignored_witness :
  distributeTasksSmartly sample 2
  = distributeTasksSmartly (map erase sample) 2 /\
  map (fun t => (id t, dayIndex t)) (distributeTasksSmartly sample 2)
  = map (fun t => (id t, dayIndex t))
      (distributeTasksSmartly (map erase sample) 2).
Proof.
  apply (prior_days_ignored sample (map erase sample) 2). reflexivity.
Defined.

(** ** The attempts counter and the fallback *)

(** The counter grows by one on every pass, whether or not the pass adds
    a task. *)
Lemma passes_attempts (n : nat) rot day dailyTarget (s : Loop) :
  attempts (passes n rot day dailyTarget s) = attempts s + Z.of_nat n.
Proof.
  revert s. induction n as [|n IH]; intros s.
  - simpl. lia.
  - cbn [passes]. rewrite IH. unfold whileBody.
    set (s2 := advance rot (takeFrom day (currentSubject rot s) s)).
    assert (H2 : attempts s2 = attempts s + 1).
    { unfold s2. simpl. now rewrite takeFrom_attempts. }
    destruct (_ && _).
    + destruct (anySubject (queues s2)) as [[|c k]|]; cbn [fst];
        rewrite ?takeFrom_attempts, H2; lia.
    + cbn [fst]. rewrite H2. lia.
Qed.

Lemma fillDay_passes (fuel : nat) rot day dailyTarget (s s' : Loop) :
  fillDay fuel rot day dailyTarget s = Some s' ->
  exists n, s' = passes n rot day dailyTarget s.
Proof.
  revert s. induction fuel as [|fuel IH]; intros s; simpl.
  - destruct (whileCond dailyTarget s); [discriminate|].
    intros [= <-]. now exists O.
  - destruct (whileCond dailyTarget s); [|intros [= <-]; now exists O].
    destruct (whileBody rot day dailyTarget s) as [s1 stop] eqn:E.
    destruct stop.
    + intros [= <-]. exists 1%nat. simpl. now rewrite E.
    + intros H. destruct (IH _ H) as (n & ->).
      exists (S n). simpl. now rewrite E.
Qed.

(** C5: the counter is not back at zero after a pass that adds a task,
    and the rotation is not given up once the counter is beyond twice
    its length.  On [busy] with one day every pass finds a task in the
    rotation.  The first pass adds a task and leaves the counter at 1;
    the counter is 10 after ten passes that each added a task; the
    eleventh pass then takes "e3" by the scan as well; and the twelfth
    pass, with the counter beyond the threshold, first takes "a3" by
    the rotation while the scan order starts at "b3". *)
Theorem attempts_on_busy :
  ~ resetOnPop (balancedRotation busy) 0 15 (busyAfter 0) /\
  ~ scanInsteadOfRotation (balancedRotation busy) 0 15 (busyAfter 11) /\
  attempts (busyAfter 10) = 10 /\
  map id (distributedTasks (busyAfter 10))
  = ["p1"; "a1"; "c1"; "e1"; "b1"; "p2"; "a2"; "c2"; "e2"; "b2"] /\
  map id (distributedTasks (busyAfter 11))
  = ["p1"; "a1"; "c1"; "e1"; "b1"; "p2"; "a2"; "c2"; "e2"; "b2";
     "p3"; "e3"] /\
  map id (distributedTasks (busyAfter 12))
  = ["p1"; "a1"; "c1"; "e1"; "b1"; "p2"; "a2"; "c2"; "e2"; "b2";
     "p3"; "e3"; "a3"; "b3"].
Proof.
  conjs; try (vm_compute; reflexivity).
  - intros H. assert (Hlt : tasksAddedToday (busyAfter 0)
             < tasksAddedToday
                 (fst (whileBody (balancedRotation busy) 0 15 (busyAfter 0))))
      by (vm_compute; reflexivity).
    specialize (H Hlt). vm_compute in H. discriminate.
  - intros H.
    assert (Hthr : 2 * Z.of_nat (length (balancedRotation busy))
                   < attempts (busyAfter 11)) by (vm_compute; reflexivity).
    destruct (H Hthr "الأحياء والجيولوجيا"
                (sampleTask "b3" "الأحياء والجيولوجيا" 0) [])
      as (rest & Hrest); try (vm_compute; reflexivity).
    vm_compute in Hrest.
    apply (f_equal (fun l => map id (firstn 13 l))) in Hrest.
    vm_compute in Hrest. discriminate.
Qed.

(** * Further properties of the allocator *)

(** ** The load of every day *)

Lemma ceilDiv_bounds (a b : Z) :
  0 < b -> a <= ceilDiv a b * b < a + b.
Proof.
  intros Hb. unfold ceilDiv.
  pose proof (Z.div_mod (- a) b ltac:(lia)) as Hdm.
  pose proof (Z.mod_pos_bound (- a) b Hb) as Hm. nia.
Qed.

Lemma ceilDiv_unique (a b c : Z) :
  0 < b -> a <= c * b < a + b -> ceilDiv a b = c.
Proof.
  intros Hb Hc. pose proof (ceilDiv_bounds a b Hb). nia.
Qed.

Lemma assignedBefore_succ (d : Z) (plan : list Task) :
  assignedBefore (d + 1) plan = assignedBefore d plan + assignedTo d plan.
Proof.
  unfold assignedBefore, assignedTo.
  induction plan as [|t plan IH]; [reflexivity|]. cbn [filter].
  destruct (Z.ltb_spec (dayIndex t) (d + 1)), (Z.ltb_spec (dayIndex t) d),
           (Z.eqb_spec (dayIndex t) d); cbn [length]; lia.
Qed.

(** ** Subjects that are ordinary property names

    When no subject is the empty string or [__proto__], every queue is
    a property of [queues], the count of the loop is the number of
    queued tasks, and the [break] is taken only when no task is left. *)

Lemma isOrdinary_own (k : string) : isOrdinary k = true -> isOwnKey k = true.
Proof. unfold isOrdinary. now intros [_ H]%andb_true_iff. Qed.

Lemma ordinaryKeys_own (q : Queues) :
  ordinaryKeys q -> Forall (fun k => isOwnKey k = true) (map fst q).
Proof.
  intros H. eapply Forall_impl; [|exact H]. apply isOrdinary_own.
Qed.

Lemma objGet_Some_In (q : Queues) (k : string) (l : list Task) :
  objGet q k = Some l -> In k (map fst q).
Proof.
  intros H. destruct (in_dec string_dec k (map fst q)) as [Hin|Hnot];
    [exact Hin|].
  apply objGet_None_notin in Hnot. congruence.
Qed.

Lemma takeFrom_keys (day : Z) (k : string) (s : Loop) :
  map fst (queues (takeFrom day k s)) = map fst (queues s).
Proof.
  destruct (takeFrom_cases day k s) as [[_ ->]|(t & r & _ & ->)];
    [reflexivity|]. simpl. apply objUpd_keys.
Qed.

Lemma takeFrom_clean (day : Z) (k : string) (s : Loop) :
  ordinaryKeys (queues s) ->
  totalRemainingTasks s = sumLengths (queues s) ->
  totalRemainingTasks (takeFrom day k s)
  = sumLengths (queues (takeFrom day k s)).
Proof.
  intros Hk Hr.
  destruct (takeFrom_cases day k s) as [[_ ->]|(t & r & Hget & ->)];
    [exact Hr|]. simpl. rewrite (sumLengths_take _ _ _ _ Hget).
  apply objGet_Some_In in Hget. unfold ordinaryKeys in Hk.
  rewrite Forall_forall in Hk. rewrite (isOrdinary_own k (Hk k Hget)). lia.
Qed.

Lemma whileBody_keys rot day dailyTarget (s : Loop) :
  map fst (queues (fst (whileBody rot day dailyTarget s)))
  = map fst (queues s).
Proof.
  unfold whileBody.
  set (s2 := advance rot (takeFrom day (currentSubject rot s) s)).
  assert (H2 : map fst (queues s2) = map fst (queues s))
    by apply takeFrom_keys.
  destruct (_ && _); [|exact H2].
  destruct (anySubject (queues s2)) as [[|c k]|]; cbn [fst];
    rewrite ?takeFrom_keys; exact H2.
Qed.

Lemma whileBody_clean rot day dailyTarget (s : Loop) :
  ordinaryKeys (queues s) ->
  totalRemainingTasks s = sumLengths (queues s) ->
  totalRemainingTasks (fst (whileBody rot day dailyTarget s))
  = sumLengths (queues (fst (whileBody rot day dailyTarget s))).
Proof.
  intros Hk Hr. unfold whileBody.
  set (s1 := takeFrom day (currentSubject rot s) s).
  set (s2 := advance rot s1).
  assert (H2 : totalRemainingTasks s2 = sumLengths (queues s2))
    by now apply takeFrom_clean.
  assert (Hk2 : ordinaryKeys (queues s2)).
  { unfold ordinaryKeys, s2, s1. simpl. now rewrite takeFrom_keys. }
  destruct (_ && _); [|exact H2].
  destruct (anySubject (queues s2)) as [[|c k]|]; cbn [fst];
    try exact H2.
  now apply takeFrom_clean.
Qed.

(** The loop of a day then ends on its condition, or with every queue
    empty. *)
Lemma fillDay_clean (fuel : nat) rot day dailyTarget (s s' : Loop) :
  NoDup (map fst (queues s)) -> ordinaryKeys (queues s) ->
  totalRemainingTasks s = sumLengths (queues s) ->
  fillDay fuel rot day dailyTarget s = Some s' ->
  totalRemainingTasks s' = sumLengths (queues s') /\
  map fst (queues s') = map fst (queues s) /\
  (whileCond dailyTarget s' = false \/ sumLengths (queues s') = 0).
Proof.
  revert s. induction fuel as [|fuel IH]; intros s Hnd Hk Hr; simpl.
  - destruct (whileCond dailyTarget s) eqn:Hc; [discriminate|].
    intros [= <-]. auto.
  - destruct (whileCond dailyTarget s) eqn:Hc; [|intros [= <-]; auto].
    pose proof (whileBody_keys rot day dailyTarget s) as Hkeys.
    pose proof (whileBody_clean rot day dailyTarget s Hk Hr) as Hr1.
    destruct (whileBody rot day dailyTarget s) as [s1 stop] eqn:Hb.
    cbn [fst] in Hkeys, Hr1. destruct stop.
    + intros [= <-]. conjs; [exact Hr1 | exact Hkeys |]. right.
      destruct (whileBody_stop _ _ _ _ _ Hb) as [Hnone|Hblank].
      * apply anySubject_None; [now rewrite Hkeys | exact Hnone].
      * exfalso. unfold anySubject in Hblank.
        apply find_some in Hblank as [Hin _].
        apply objectKeys_In in Hin as [Hin _]. rewrite Hkeys in Hin.
        unfold ordinaryKeys in Hk. rewrite Forall_forall in Hk.
        specialize (Hk _ Hin). discriminate Hk.
    + intros Hrun.
      destruct (IH s1) as (H1 & H2 & H3); try assumption.
      * now rewrite Hkeys.
      * unfold ordinaryKeys. now rewrite Hkeys.
      * conjs; [exact H1 | congruence | exact H3].
Qed.

Lemma flat_nil_of_sumLengths (q : Queues) :
  ordinaryKeys q -> sumLengths q = 0 -> flat q = [].
Proof.
  intros Hk. rewrite sumLengths_flat by now apply ordinaryKeys_own.
  destruct (flat q); simpl; [reflexivity | lia].
Qed.

Lemma initQueues_ordinary (tasks : list Task) :
  ordinarySubjects tasks = true -> ordinaryKeys (initQueues tasks).
Proof.
  intros H. unfold ordinaryKeys.
  rewrite initQueues_tabulate, tabulate_keys. apply Forall_forall.
  intros k Hk. apply allSubjects_In, in_map_iff in Hk as (t & <- & Ht).
  unfold ordinarySubjects in H. rewrite forallb_forall in H. now apply H.
Qed.

Section Exact.

Variable tasks : list Task.
Variable rot : list string.
Variable totalDays : Z.
Variable fuel : nat.
Hypothesis fuel_enough :
  (2 * length rot + 1 + length tasks <= fuel)%nat.

Lemma startDay_exact (day : Z) (a : Alloc) :
  QInv tasks (aQueues a) (aDistributed a) ->
  ordinaryKeys (aQueues a) ->
  1 <= totalDays - day ->
  let target := ceilDiv (sumLengths (aQueues a)) (totalDays - day) in
  exists s today,
    fillDay fuel rot day target (startDay a) = Some s /\
    QInv tasks (queues s) (distributedTasks s) /\
    ordinaryKeys (queues s) /\
    distributedTasks s = aDistributed a ++ today /\
    Forall (fun t => dayIndex t = day) today /\
    Z.of_nat (length today) = target /\
    sumLengths (queues s) = sumLengths (aQueues a) - target.
Proof.
  intros Hq Hk Hd target.
  pose proof (sumLengths_le_flat (aQueues a)) as [Hnn Hfl].
  assert (Ht0 : 0 <= target) by (apply ceilDiv_nonneg; lia).
  assert (HtR : target <= sumLengths (aQueues a))
    by (apply ceilDiv_le_self; lia).
  pose proof (QInv_sumLengths _ _ _ Hq) as Hlen.
  assert (Hinv : DayInv tasks day target (aDistributed a)
                   (sumLengths (aQueues a)) (startDay a)).
  { split; simpl; auto; try lia.
    exists []. rewrite app_nil_r.
    conjs; [reflexivity | constructor | reflexivity]. }
  destruct (fillDay_total tasks rot day target _ _ fuel _ Hinv)
    as (s & Hrun & [Hq' Hr Hsum Hadd (today & Hp & Hday & Hl)]).
  { unfold passesLeft, startDay. cbn [attempts tasksAddedToday]. lia. }
  destruct (fillDay_clean fuel rot day target (startDay a) s
              (inv_keys _ _ _ Hq) Hk eq_refl Hrun)
    as (Hrem & Hkeys & Hexit).
  pose proof (sumLengths_nonneg (queues s)) as Hnn'.
  assert (Hfull : tasksAddedToday s = target).
  { destruct Hexit as [Hc|Hz]; [|lia].
    unfold whileCond in Hc. apply andb_false_iff in Hc.
    destruct Hc as [Hc|Hc]; apply Z.ltb_ge in Hc; lia. }
  exists s, today. conjs; try assumption; try lia.
  unfold ordinaryKeys. rewrite Hkeys. exact Hk.
Qed.

Lemma dayLoop_exact (n : nat) :
  forall (day : Z) (a : Alloc),
    QInv tasks (aQueues a) (aDistributed a) ->
    ordinaryKeys (aQueues a) ->
    Z.of_nat n = totalDays - day -> 0 <= day ->
    exists a' rest,
      dayLoop fuel rot totalDays n day a = Some a' /\
      QInv tasks (aQueues a') (aDistributed a') /\
      ordinaryKeys (aQueues a') /\
      (n <> O -> sumLengths (aQueues a') = 0) /\
      aDistributed a' = aDistributed a ++ rest /\
      Forall (fun t => day <= dayIndex t < totalDays) rest /\
      pacedExactly totalDays day (sumLengths (aQueues a)) rest.
Proof.
  induction n as [|n IH]; intros day a Hq Hk Hn Hday; simpl.
  - exists a, []. rewrite app_nil_r. conjs; auto.
    + congruence.
    + intros d Hd. lia.
  - destruct (sumLengths (aQueues a) =? 0) eqn:Hz.
    + apply Z.eqb_eq in Hz.
      exists a, []. rewrite app_nil_r. conjs; auto.
      intros d Hd. rewrite Hz. unfold assignedTo, assignedBefore. simpl.
      now rewrite ceilDiv_zero.
    + destruct (startDay_exact day a Hq Hk ltac:(lia))
        as (s & today & Hrun & Hq1 & Hk1 & Hp1 & Hd1 & Hl1 & Hs1).
      rewrite Hrun.
      destruct (IH (day + 1) (endDay s) Hq1 Hk1 ltac:(lia) ltac:(lia))
        as (a' & rest & Hrun' & Hq' & Hk' & Hz' & Hp' & Hr' & Hpace').
      simpl in *.
      exists a', (today ++ rest). conjs.
      * exact Hrun'.
      * exact Hq'.
      * exact Hk'.
      * intros _. destruct n as [|n]; [|apply Hz'; discriminate].
        simpl in Hrun'. injection Hrun' as <-. simpl.
        replace (totalDays - day) with 1 in Hs1 by lia.
        rewrite ceilDiv_one in Hs1. lia.
      * now rewrite Hp', Hp1, app_assoc.
      * apply Forall_app. split.
        -- eapply Forall_impl; [|exact Hd1]. simpl. intros t Ht. lia.
        -- eapply Forall_impl; [|exact Hr']. simpl. intros t Ht. lia.
      * intros d Hd. rewrite assignedTo_app, assignedBefore_app.
        destruct (Z.eq_dec d day) as [->|Hne].
        -- rewrite (assignedTo_same day today Hd1).
           rewrite (assignedTo_other day rest),
                   (assignedBefore_none day today),
                   (assignedBefore_none day rest).
           ++ rewrite Z.sub_0_r. lia.
           ++ eapply Forall_impl; [|exact Hr']. simpl. intros; lia.
           ++ eapply Forall_impl; [|exact Hd1]. simpl. intros; lia.
           ++ eapply Forall_impl; [|exact Hr']. simpl. intros; lia.
        -- rewrite (assignedTo_other d today),
                   (assignedBefore_all d today).
           ++ specialize (Hpace' d ltac:(lia)). rewrite Hs1 in Hpace'.
              rewrite Hl1, Hpace', Z.add_0_l. f_equal. lia.
           ++ eapply Forall_impl; [|exact Hd1]. simpl. intros; lia.
           ++ eapply Forall_impl; [|exact Hd1]. simpl. intros; lia.
Qed.

End Exact.

(** The run on ordinary subjects: no task is left, and every day takes
    its share. *)
Lemma distributeTasksSmartly_ordinary (tasks : list Task) (totalDays : Z) :
  ordinarySubjects tasks = true -> 0 < totalDays ->
  let plan := distributeTasksSmartly tasks totalDays in
  Permutation (map erase plan) (map erase tasks) /\
  (forall k, map erase (filter (bySubject k) plan)
             = map erase (filter (bySubject k) tasks)) /\
  pacedExactly totalDays 0 (Z.of_nat (length tasks)) plan.
Proof.
  intros Hord Hpos plan.
  pose proof (initQueues_ordinary tasks Hord) as Hk.
  destruct (dayLoop_exact tasks (balancedRotation tasks) totalDays
              (loopFuel tasks) (Nat.le_refl _) (Z.to_nat totalDays) 0
              (mkAlloc (initQueues tasks) [] 0))
    as (a' & rest & Hrun & Hq & Hk' & Hz & Hp & _ & Hpace);
    [apply QInv_init | exact Hk | lia | lia |].
  pose proof (distributeTasksSmartly_run tasks totalDays) as Hplan.
  unfold distributeWithFuel in Hplan. rewrite Hrun in Hplan.
  simpl in Hplan, Hp. injection Hplan as Hplan. fold plan in Hplan.
  rewrite Hplan in Hq. subst rest.
  pose proof (flat_nil_of_sumLengths _ Hk' (Hz ltac:(lia))) as Hflat.
  conjs.
  - pose proof (inv_perm _ _ _ Hq) as Hperm. rewrite Hflat in Hperm.
    simpl in Hperm. now rewrite app_nil_r in Hperm.
  - intros k. pose proof (inv_fifo _ _ _ Hq k) as Hf.
    assert (Hnil : qOf (aQueues a') k = []).
    { unfold qOf. destruct (objGet (aQueues a') k) as [l|] eqn:E;
        [|reflexivity].
      destruct (objGet_split _ _ _ E) as (q1 & q2 & Hsplit & _).
      rewrite Hsplit, flat_app in Hflat. unfold flat at 2 in Hflat.
      simpl in Hflat. apply app_eq_nil in Hflat as [_ Hflat].
      now apply app_eq_nil in Hflat as [Hflat _]. }
    rewrite Hnil in Hf. simpl in Hf. now rewrite app_nil_r in Hf.
  - pose proof (QInv_sumLengths _ _ _ (QInv_init tasks)) as Hlen.
    rewrite <- (sumLengths_flat (initQueues tasks)) in Hlen
      by now apply ordinaryKeys_own.
    simpl in Hlen, Hpace. rewrite <- Hlen, <- Hplan. exact Hpace.
Qed.

Lemma plan_perm (tasks : list Task) (totalDays : Z) :
  ordinarySubjects tasks = true -> 0 < totalDays ->
  Permutation (map erase (distributeTasksSmartly tasks totalDays))
              (map erase tasks).
Proof.
  intros Hord Hpos. now apply distributeTasksSmartly_ordinary.
Qed.

Lemma exact_share (tasks : list Task) (totalDays d : Z) :
  ordinarySubjects tasks = true ->
  0 <= d < totalDays ->
  let plan := distributeTasksSmartly tasks totalDays in
  assignedTo d plan
  = ceilDiv (Z.of_nat (length tasks) - assignedBefore d plan)
            (totalDays - d).
Proof.
  intros Hord Hd plan.
  apply (distributeTasksSmartly_ordinary tasks totalDays Hord); lia.
Qed.

(** X1: when no subject is the empty string or [__proto__], the number
    of tasks on every day of the plan is exactly the ceiling of the tasks
    not yet planned over the days left: the bound of the pacing rule is
    met. *)
Theorem pacing_exact (tasks : list Task) (totalDays d : Z) :
  ordinarySubjects tasks = true ->
  0 <= d < totalDays ->
  let plan := distributeTasksSmartly tasks totalDays in
  assignedTo d plan
  = ceilDiv (Z.of_nat (length tasks) - assignedBefore d plan)
            (totalDays - d).
Proof.
  intros Hord Hd plan.
  destruct (distributeTasksSmartly_ordinary tasks totalDays Hord)
    as (_ & _ & Hpace); [lia|].
  fold plan in Hpace. unfold pacedExactly in Hpace.
  apply Hpace. exact Hd.
Qed.

Lemma pacing_exact_witness :
  let plan := distributeTasksSmartly sample 2 in
  assignedTo 1 plan
  = ceilDiv (Z.of_nat (length sample) - assignedBefore 1 plan) (2 - 1).
Proof. apply (pacing_exact sample 2 1); [reflexivity | lia]. Defined.

Lemma share_step (q Q k R : Z) :
  1 <= k -> q <= Q <= q + 1 -> q * k <= R <= Q * k ->
  q <= ceilDiv R k <= Q /\
  q * (k - 1) <= R - ceilDiv R k <= Q * (k - 1).
Proof.
  intros Hk HQ HR. pose proof (ceilDiv_bounds R k ltac:(lia)) as Hc.
  assert (H1 : q <= ceilDiv R k <= Q) by nia.
  split; [exact H1|].
  assert (Hcase : ceilDiv R k = q \/ ceilDiv R k = q + 1) by lia.
  destruct Hcase as [E|E]; rewrite E in *; nia.
Qed.

Lemma floor_ceil_shares (n D : Z) :
  0 < D ->
  n / D <= ceilDiv n D <= n / D + 1 /\
  n / D * D <= n <= ceilDiv n D * D.
Proof.
  intros HD. pose proof (ceilDiv_bounds n D HD) as Hc.
  pose proof (Z.div_mod n D ltac:(lia)) as Hdm.
  pose proof (Z.mod_pos_bound n D HD) as Hm. nia.
Qed.

Lemma assignedBefore_zero (plan : list Task) (totalDays : Z) :
  Forall (fun t => 0 <= dayIndex t < totalDays) plan ->
  assignedBefore 0 plan = 0.
Proof.
  intros H. apply assignedBefore_none.
  eapply Forall_impl; [|exact H]. simpl. intros; lia.
Qed.

Lemma remaining_between_shares (tasks : list Task) (totalDays : Z)
  (m : nat) :
  ordinarySubjects tasks = true ->
  0 < totalDays -> Z.of_nat m <= totalDays ->
  let plan := distributeTasksSmartly tasks totalDays in
  let n := Z.of_nat (length tasks) in
  n / totalDays * (totalDays - Z.of_nat m)
  <= n - assignedBefore (Z.of_nat m) plan
  <= ceilDiv n totalDays * (totalDays - Z.of_nat m).
Proof.
  intros Hord Hpos Hm plan n.
  pose proof (floor_ceil_shares n totalDays Hpos) as [HqQ Hn].
  induction m as [|m IH].
  - unfold plan. rewrite (assignedBefore_zero _ totalDays).
    + simpl. lia.
    + apply distributeTasksSmartly_facts.
  - specialize (IH ltac:(lia)).
    replace (Z.of_nat (S m)) with (Z.of_nat m + 1) by lia.
    rewrite assignedBefore_succ.
    pose proof (exact_share tasks totalDays (Z.of_nat m) Hord ltac:(lia))
      as He.
    fold plan in He. fold n in He. rewrite He.
    destruct (share_step (n / totalDays) (ceilDiv n totalDays)
                (totalDays - Z.of_nat m)
                (n - assignedBefore (Z.of_nat m) plan)
                ltac:(lia) ltac:(lia) IH) as [_ Hstep].
    replace (totalDays - (Z.of_nat m + 1))
      with (totalDays - Z.of_nat m - 1) by lia.
    lia.
Qed.

Lemma share_bounds (tasks : list Task) (totalDays d : Z) :
  ordinarySubjects tasks = true ->
  0 <= d < totalDays ->
  let plan := distributeTasksSmartly tasks totalDays in
  let n := Z.of_nat (length tasks) in
  n / totalDays <= assignedTo d plan <= ceilDiv n totalDays.
Proof.
  intros Hord Hd plan n.
  assert (Hpos : 0 < totalDays) by lia.
  pose proof (floor_ceil_shares n totalDays Hpos) as [HqQ Hn].
  pose proof (remaining_between_shares tasks totalDays (Z.to_nat d)
                Hord Hpos ltac:(lia)) as HR.
  rewrite Z2Nat.id in HR by lia. fold plan in HR. fold n in HR.
  pose proof (exact_share tasks totalDays d Hord Hd) as He.
  fold plan in He. fold n in He. rewrite He.
  destruct (share_step (n / totalDays) (ceilDiv n totalDays)
              (totalDays - d) (n - assignedBefore d plan)
              ltac:(lia) ltac:(lia) HR) as [Hc _].
  exact Hc.
Qed.

(** X2: when no subject is the empty string or [__proto__], the plan
    spreads the tasks evenly: with [n] tasks and [totalDays] days every
    day gets either the floor or the ceiling of [n / totalDays] tasks; so
    no day is empty when there are at least as many tasks as days. *)
Theorem even_spread (tasks : list Task) (totalDays d : Z) :
  ordinarySubjects tasks = true ->
  0 <= d < totalDays ->
  let plan := distributeTasksSmartly tasks totalDays in
  let n := Z.of_nat (length tasks) in
  n / totalDays <= assignedTo d plan <= ceilDiv n totalDays /\
  (totalDays <= n -> 1 <= assignedTo d plan).
Proof.
  intros Hord Hd plan n.
  pose proof (share_bounds tasks totalDays d Hord Hd) as Hb.
  cbv zeta in Hb. fold plan in Hb. fold n in Hb.
  split; [exact Hb|]. intros Hle.
  assert (1 <= n / totalDays); [|lia].
  apply Z.div_le_lower_bound; lia.
Qed.

Lemma even_spread_witness :
  let plan := distributeTasksSmartly sample 2 in
  let n := Z.of_nat (length sample) in
  n / 2 <= assignedTo 1 plan <= ceilDiv n 2 /\
  (2 <= n -> 1 <= assignedTo 1 plan).
Proof. apply (even_spread sample 2 1); [reflexivity | lia]. Defined.

(** X3: when no subject is the empty string or [__proto__], the load
    never grows from a day to the next: when the tasks do not divide
    evenly, the days with one more task come first. *)
Theorem loads_nonincreasing (tasks : list Task) (totalDays d : Z) :
  ordinarySubjects tasks = true ->
  0 <= d -> d + 1 < totalDays ->
  let plan := distributeTasksSmartly tasks totalDays in
  assignedTo (d + 1) plan <= assignedTo d plan.
Proof.
  intros Hord Hd0 Hd1 plan.
  pose proof (exact_share tasks totalDays d Hord ltac:(lia)) as He.
  pose proof (exact_share tasks totalDays (d + 1) Hord ltac:(lia)) as He'.
  cbv zeta in He, He'. fold plan in He, He'.
  rewrite assignedBefore_succ in He'.
  set (R := Z.of_nat (length tasks) - assignedBefore d plan) in *.
  pose proof (ceilDiv_bounds R (totalDays - d) ltac:(lia)) as Hc.
  rewrite <- He in Hc.
  pose proof (ceilDiv_bounds (R - assignedTo d plan) (totalDays - (d + 1))
                ltac:(lia)) as Hc'.
  replace (Z.of_nat (length tasks)
           - (assignedBefore d plan + assignedTo d plan))
    with (R - assignedTo d plan) in He' by (unfold R; lia).
  rewrite <- He' in Hc'. nia.
Qed.

Lemma loads_nonincreasing_witness :
  let plan := distributeTasksSmartly sample 3 in
  assignedTo (0 + 1) plan <= assignedTo 0 plan.
Proof.
  apply (loads_nonincreasing sample 3 0); [reflexivity | lia | lia].
Defined.

Lemma assignedTo_outside (plan : list Task) (totalDays d : Z) :
  Forall (fun t => 0 <= dayIndex t < totalDays) plan ->
  ~ (0 <= d < totalDays) -> assignedTo d plan = 0.
Proof.
  intros H Hd. apply assignedTo_other.
  eapply Forall_impl; [|exact H]. simpl. intros; lia.
Qed.

(** X4: as long as no subject is the empty string or [__proto__], the
    load of each day depends only on the number of tasks and of days: two
    such task lists of the same length get the same number of tasks on
    every day, whatever their subjects and their order. *)
Theorem loads_depend_on_counts (tasks1 tasks2 : list Task)
  (totalDays d : Z) :
  ordinarySubjects tasks1 = true -> ordinarySubjects tasks2 = true ->
  length tasks1 = length tasks2 ->
  assignedTo d (distributeTasksSmartly tasks1 totalDays)
  = assignedTo d (distributeTasksSmartly tasks2 totalDays).
Proof.
  intros Hord1 Hord2 Hlen.
  set (p1 := distributeTasksSmartly tasks1 totalDays).
  set (p2 := distributeTasksSmartly tasks2 totalDays).
  pose proof (pf_range _ _ _ (distributeTasksSmartly_facts tasks1 totalDays))
    as Hr1.
  pose proof (pf_range _ _ _ (distributeTasksSmartly_facts tasks2 totalDays))
    as Hr2.
  fold p1 in Hr1. fold p2 in Hr2.
  destruct (Z_lt_dec d 0) as [Hneg|Hnn];
    [rewrite !(assignedTo_outside _ totalDays) by (auto; lia); reflexivity|].
  destruct (Z_lt_dec d totalDays) as [Hin|Hout];
    [|rewrite !(assignedTo_outside _ totalDays) by (auto; lia); reflexivity].
  assert (Hbefore : forall m : nat, Z.of_nat m <= d ->
            assignedBefore (Z.of_nat m) p1 = assignedBefore (Z.of_nat m) p2).
  { induction m as [|m IH]; intros Hm.
    - now rewrite !(assignedBefore_zero _ totalDays).
    - replace (Z.of_nat (S m)) with (Z.of_nat m + 1) by lia.
      rewrite !assignedBefore_succ, IH by lia. f_equal.
      unfold p1, p2. rewrite !exact_share by (auto; lia).
      fold p1. fold p2. now rewrite IH, Hlen by lia. }
  specialize (Hbefore (Z.to_nat d)). rewrite Z2Nat.id in Hbefore by lia.
  unfold p1, p2. rewrite !exact_share by (auto; lia).
  fold p1. fold p2. now rewrite Hbefore, Hlen by lia.
Qed.

Lemma loads_depend_on_counts_witness :
  assignedTo 1 (distributeTasksSmartly sample 2)
  = assignedTo 1 (distributeTasksSmartly (rev sample) 2).
Proof.
  apply (loads_depend_on_counts sample (rev sample) 2 1); reflexivity.
Defined.

(** * The application *)

(** ** Sorting by day *)

Lemma insertByDay_perm (t : Task) (l : list Task) :
  Permutation (insertByDay t l) (t :: l).
Proof.
  induction l as [|u l IH]; simpl; [reflexivity|].
  destruct (dayIndex t <=? dayIndex u); [reflexivity|].
  rewrite IH. apply perm_swap.
Qed.

Lemma sortByDay_perm (l : list Task) : Permutation (sortByDay l) l.
Proof.
  induction l as [|t l IH]; simpl; [reflexivity|].
  rewrite insertByDay_perm. now constructor.
Qed.

Lemma insertByDay_sorted (t : Task) (l : list Task) :
  StronglySorted dayLe l -> StronglySorted dayLe (insertByDay t l).
Proof.
  induction 1 as [|u l Hs IH Hf]; simpl.
  - repeat constructor.
  - destruct (Z.leb_spec (dayIndex t) (dayIndex u)) as [Hle|Hgt].
    + constructor; [now constructor|]. constructor; [exact Hle|].
      eapply Forall_impl; [|exact Hf]. unfold dayLe. simpl. intros; lia.
    + constructor; [exact IH|].
      eapply Permutation_Forall; [symmetry; apply insertByDay_perm|].
      constructor; [unfold dayLe; lia | exact Hf].
Qed.

Lemma sortByDay_sorted (l : list Task) : StronglySorted dayLe (sortByDay l).
Proof.
  induction l as [|t l IH]; simpl; [constructor|].
  now apply insertByDay_sorted.
Qed.

Lemma insertByDay_onDay (d : Z) (t : Task) (l : list Task) :
  filter (onDay d) (insertByDay t l)
  = (if onDay d t then [t] else []) ++ filter (onDay d) l.
Proof.
  induction l as [|u l IH]; simpl; [now destruct (onDay d t)|].
  destruct (Z.leb_spec (dayIndex t) (dayIndex u)) as [Hle|Hgt]; simpl.
  - now destruct (onDay d t).
  - rewrite IH. unfold onDay.
    destruct (Z.eqb_spec (dayIndex t) d), (Z.eqb_spec (dayIndex u) d);
      simpl; try reflexivity. lia.
Qed.

(** Stability: the tasks of a day keep their order. *)
Lemma sortByDay_onDay (d : Z) (l : list Task) :
  filter (onDay d) (sortByDay l) = filter (onDay d) l.
Proof.
  induction l as [|t l IH]; simpl; [reflexivity|].
  rewrite insertByDay_onDay, IH. now destruct (onDay d t).
Qed.

Lemma insertByDay_head (t : Task) (l : list Task) :
  Forall (dayLe t) l -> insertByDay t l = t :: l.
Proof.
  destruct 1 as [|u l Hu Hl]; simpl; [reflexivity|].
  unfold dayLe in Hu.
  now destruct (Z.leb_spec (dayIndex t) (dayIndex u)); [|lia].
Qed.

Lemma sortByDay_sorted_id (l : list Task) :
  StronglySorted dayLe l -> sortByDay l = l.
Proof.
  induction 1 as [|u l Hs IH Hf]; simpl; [reflexivity|].
  rewrite IH. now apply insertByDay_head.
Qed.

Lemma insertByDay_filter (p : Task -> bool) (t : Task) (l : list Task) :
  StronglySorted dayLe l ->
  filter p (insertByDay t l)
  = if p t then insertByDay t (filter p l) else filter p l.
Proof.
  induction 1 as [|u l Hs IH Hf]; simpl; [now destruct (p t)|].
  destruct (Z.leb_spec (dayIndex t) (dayIndex u)) as [Hle|Hgt]; simpl.
  - destruct (p t); [|reflexivity].
    symmetry. apply (insertByDay_head t (filter p (u :: l))).
    apply Forall_forall. intros x Hx. apply filter_In in Hx as [Hx _].
    destruct Hx as [<-|Hx]; [exact Hle|].
    rewrite Forall_forall in Hf. specialize (Hf x Hx).
    unfold dayLe in *. lia.
  - rewrite IH. destruct (p u), (p t); simpl; try reflexivity.
    destruct (Z.leb_spec (dayIndex t) (dayIndex u)); [lia | reflexivity].
Qed.

Lemma sortByDay_filter (p : Task -> bool) (l : list Task) :
  filter p (sortByDay l) = sortByDay (filter p l).
Proof.
  induction l as [|t l IH]; simpl; [reflexivity|].
  rewrite insertByDay_filter by apply sortByDay_sorted.
  rewrite IH. now destruct (p t).
Qed.

(** ** The view by day *)

Lemma daysFrom_In (i : Z) (n : nat) (d : Z) :
  In d (daysFrom i n) <-> i <= d < i + Z.of_nat n.
Proof.
  revert i. induction n as [|n IH]; intros i; simpl; [lia|].
  rewrite IH. lia.
Qed.

Lemma dayRange_In (totalDays d : Z) :
  In d (dayRange totalDays) <-> 0 <= d < totalDays.
Proof. unfold dayRange. rewrite daysFrom_In. lia. Qed.

Lemma sorted_first_day (i : Z) (l : list Task) :
  StronglySorted dayLe l ->
  Forall (fun t => i <= dayIndex t) l ->
  l = filter (onDay i) l ++ filter (fun t => i <? dayIndex t) l.
Proof.
  induction 1 as [|u l Hs IH Hf]; intros Hge; [reflexivity|].
  inversion Hge as [|? ? Hu Hl]; subst. simpl. unfold onDay at 1.
  destruct (Z.eqb_spec (dayIndex u) i) as [E|E].
  - destruct (Z.ltb_spec i (dayIndex u)); [lia|]. simpl. f_equal. now apply IH.
  - destruct (Z.ltb_spec i (dayIndex u)); [|lia].
    rewrite (filter_none (onDay i) l).
    + simpl. f_equal. symmetry. apply filter_all.
      intros x Hx. rewrite Forall_forall in Hf. specialize (Hf x Hx).
      unfold dayLe in Hf. apply Z.ltb_lt. lia.
    + intros x Hx. rewrite Forall_forall in Hf. specialize (Hf x Hx).
      unfold dayLe in Hf. unfold onDay. apply Z.eqb_neq. lia.
Qed.

Lemma filter_after_first_day (i d : Z) (l : list Task) :
  i < d ->
  filter (onDay d) (filter (fun t => i <? dayIndex t) l)
  = filter (onDay d) l.
Proof.
  intros Hd. rewrite filter_filter'. apply filter_ext. intros t.
  unfold onDay.
  destruct (Z.eqb_spec (dayIndex t) d), (Z.ltb_spec i (dayIndex t));
    simpl; try reflexivity. lia.
Qed.

Lemma StronglySorted_filter {A : Type} (R : A -> A -> Prop)
  (p : A -> bool) (l : list A) :
  StronglySorted R l -> StronglySorted R (filter p l).
Proof.
  induction 1 as [|a l Hs IH Hf]; simpl; [constructor|].
  destruct (p a); [|exact IH]. constructor; [exact IH|].
  apply Forall_forall. intros x Hx. apply filter_In in Hx as [Hx _].
  rewrite Forall_forall in Hf. auto.
Qed.

Lemma flat_map_pointwise {A B : Type} (f g : A -> list B) (l : list A) :
  (forall x, In x l -> f x = g x) -> flat_map f l = flat_map g l.
Proof.
  induction l as [|a l IH]; simpl; [reflexivity|].
  intros H. rewrite (H a) by auto. f_equal. apply IH. auto.
Qed.

Lemma days_concat (n : nat) :
  forall (i : Z) (l : list Task),
    StronglySorted dayLe l ->
    Forall (fun t => i <= dayIndex t < i + Z.of_nat n) l ->
    flat_map (fun d => filter (onDay d) l) (daysFrom i n) = l.
Proof.
  induction n as [|n IH]; intros i l Hs Hr; simpl.
  - destruct l as [|t l]; [reflexivity|]. inversion Hr; subst. lia.
  - transitivity (filter (onDay i) l ++ filter (fun t => i <? dayIndex t) l);
      [|symmetry; apply (sorted_first_day i l Hs);
        eapply Forall_impl; [|exact Hr]; simpl; intros; lia].
    f_equal.
    rewrite <- (IH (i + 1) (filter (fun t => i <? dayIndex t) l)).
    + apply flat_map_pointwise. intros d Hd. apply daysFrom_In in Hd.
      symmetry. apply filter_after_first_day. lia.
    + now apply StronglySorted_filter.
    + apply Forall_forall. intros t Ht. apply filter_In in Ht as [Ht Hlt].
      rewrite Forall_forall in Hr. specialize (Hr t Ht).
      apply Z.ltb_lt in Hlt. lia.
Qed.






(** ** Marking a task as done *)

Lemma flipCompleted_involutive (t : Task) :
  flipCompleted (flipCompleted t) = t.
Proof.
  destruct t. unfold flipCompleted. simpl. now rewrite negb_involutive.
Qed.

(** X7: [toggleTask] is its own inverse, and it changes nothing but the
    completion mark: ids, subjects, topics, days, colors and the order of
    the list stay. *)
Theorem toggleTask_involutive (id0 : string) (tasks : list Task) :
  toggleTask id0 (toggleTask id0 tasks) = tasks /\
  map (fun t => (id t, subject t, topic t, dayIndex t, color t))
      (toggleTask id0 tasks)
  = map (fun t => (id t, subject t, topic t, dayIndex t, color t)) tasks.
Proof.
  unfold toggleTask. split.
  - rewrite map_map. rewrite <- (map_id tasks) at 2. apply map_ext.
    intros t. destruct (String.eqb (id t) id0) eqn:E.
    + change (id (flipCompleted t)) with (id t). rewrite E.
      apply flipCompleted_involutive.
    + now rewrite E.
  - rewrite map_map. apply map_ext. intros t.
    now destruct (String.eqb (id t) id0).
Qed.

(** ** Deleting a task *)

Lemma delete_other (id0 : string) (l : list Task) :
  ~ In id0 (map id l) -> handleDeleteTask id0 l = l.
Proof.
  intros H. unfold handleDeleteTask. apply filter_all. intros t Ht.
  destruct (String.eqb (id t) id0) eqn:E; [|reflexivity].
  apply String.eqb_eq in E. exfalso. apply H. rewrite <- E. now apply in_map.
Qed.

(** X8: when ids are distinct, deleting the id of a task removes that
    task and leaves all the others where they are. *)
Theorem delete_removes_one (l1 l2 : list Task) (t : Task) :
  NoDup (map id (l1 ++ t :: l2)) ->
  handleDeleteTask (id t) (l1 ++ t :: l2) = l1 ++ l2.
Proof.
  intros Hnd. rewrite map_app in Hnd. simpl in Hnd.
  pose proof (NoDup_remove_2 _ _ _ Hnd) as Hnot.
  rewrite in_app_iff in Hnot.
  unfold handleDeleteTask. rewrite filter_app. simpl.
  rewrite String.eqb_refl. simpl.
  fold (handleDeleteTask (id t) l1). fold (handleDeleteTask (id t) l2).
  rewrite !delete_other by tauto. reflexivity.
Qed.

Lemma delete_removes_one_witness :
  handleDeleteTask "b"
    ([sampleTask "a" "x" 0] ++ sampleTask "b" "y" 0 :: [sampleTask "c" "x" 2])
  = [sampleTask "a" "x" 0] ++ [sampleTask "c" "x" 2].
Proof.
  apply (delete_removes_one [sampleTask "a" "x" 0] [sampleTask "c" "x" 2]
           (sampleTask "b" "y" 0)).
  repeat constructor; simpl; intuition discriminate.
Defined.

(** X9: deleting an id that no task has changes nothing; and after a
    deletion no task has the id. *)
Theorem delete_missing_id (id0 : string) (tasks : list Task) :
  (~ In id0 (map id tasks) -> handleDeleteTask id0 tasks = tasks) /\
  ~ In id0 (map id (handleDeleteTask id0 tasks)).
Proof.
  split; [apply delete_other|].
  intros H. apply in_map_iff in H as (t & Hid & Ht).
  apply filter_In in Ht as [_ Ht]. rewrite Hid, String.eqb_refl in Ht.
  discriminate.
Qed.

(** ** Adding a task *)

Lemma add_sorted_days (tasks : list Task) (newTask : Task) (d : Z) :
  filter (onDay d) (sortByDay (tasks ++ [newTask]))
  = filter (onDay d) tasks ++ (if onDay d newTask then [newTask] else []).
Proof.
  rewrite sortByDay_onDay, filter_app. simpl.
  now destruct (onDay d newTask).
Qed.

(** X10: saving a new task (no id in the form) puts it at the end of the
    list of its day: the list of every other day is unchanged, the result
    is ordered by day, holds the old tasks and the new one, and the new
    task is not completed. *)
Theorem save_new_task (now : Z) (taskData : TaskData) (tasks : list Task) :
  tdId taskData = None \/ tdId taskData = Some "" ->
  let newTask :=
    mkTask ("custom-" ++ numberToString now) (tdSubject taskData)
           (tdTopic taskData) false (tdDayIndex taskData)
           (match tdColor taskData with Some c => c | None => None end) in
  let result := handleSaveTask now taskData tasks in
  StronglySorted dayLe result /\
  Permutation result (newTask :: tasks) /\
  forall d, filter (onDay d) result
            = filter (onDay d) tasks
                ++ (if d =? tdDayIndex taskData then [newTask] else []).
Proof.
  intros Hid newTask result.
  assert (E : result = sortByDay (tasks ++ [newTask])).
  { unfold result, handleSaveTask. destruct Hid as [-> | ->]; reflexivity. }
  rewrite E. conjs.
  - apply sortByDay_sorted.
  - rewrite sortByDay_perm. symmetry. apply Permutation_cons_append.
  - intros d. rewrite add_sorted_days. unfold onDay at 2. simpl.
    now rewrite Z.eqb_sym.
Qed.

Lemma save_new_task_witness :
  let taskData := mkTaskData None "art" "colours" 7 None in
  let newTask := mkTask ("custom-" ++ numberToString 5) "art" "colours"
                        false 7 None in
  let result := handleSaveTask 5 taskData sample in
  StronglySorted dayLe result /\
  Permutation result (newTask :: sample) /\
  forall d, filter (onDay d) result
            = filter (onDay d) sample ++ (if d =? 7 then [newTask] else []).
Proof.
  apply (save_new_task 5 (mkTaskData None "art" "colours" 7 None) sample).
  left. reflexivity.
Defined.

(** X11: a quick add with a blank topic changes nothing; otherwise the
    new task, not completed, goes to the end of the list of the selected
    day, the list of every other day is unchanged and the result is
    ordered by day. *)
Theorem quick_add (trim : string -> string) (now : Z)
  (quickTopic quickSubject : string) (selectedDay : Z)
  (tasks : list Task) :
  let newTask :=
    mkTask ("quick-" ++ numberToString now) quickSubject quickTopic false
           selectedDay None in
  let result :=
    handleQuickAdd trim now quickTopic quickSubject selectedDay tasks in
  (trim quickTopic = "" -> result = tasks) /\
  (trim quickTopic <> "" ->
   StronglySorted dayLe result /\
   forall d, filter (onDay d) result
             = filter (onDay d) tasks
                 ++ (if d =? selectedDay then [newTask] else [])).
Proof.
  intros newTask result. unfold result, handleQuickAdd. split.
  - now intros ->.
  - intros Hne. destruct (trim quickTopic) as [|c r]; [congruence|].
    fold newTask. split; [apply sortByDay_sorted|].
    intros d. rewrite add_sorted_days. unfold onDay at 2. simpl.
    now rewrite Z.eqb_sym.
Qed.

Lemma delete_added (id0 : string) (tasks : list Task) (newTask : Task) :
  id newTask = id0 ->
  handleDeleteTask id0 (sortByDay (tasks ++ [newTask]))
  = sortByDay (handleDeleteTask id0 tasks).
Proof.
  intros Hid. unfold handleDeleteTask.
  rewrite sortByDay_filter, filter_app. cbn [filter].
  now rewrite Hid, String.eqb_refl, app_nil_r.
Qed.

(** X12: on a list ordered by day, adding a task and deleting it again
    gives the list back, provided no task had the id of the new one. *)
Theorem add_then_delete (now : Z) (taskData : TaskData)
  (tasks : list Task) :
  tdId taskData = None ->
  StronglySorted dayLe tasks ->
  ~ In ("custom-" ++ numberToString now)%string (map id tasks) ->
  handleDeleteTask ("custom-" ++ numberToString now)
    (handleSaveTask now taskData tasks)
  = tasks.
Proof.
  intros Hid Hs Hnew. unfold handleSaveTask. rewrite Hid.
  rewrite delete_added by reflexivity.
  rewrite delete_other by exact Hnew. now apply sortByDay_sorted_id.
Qed.

Lemma add_then_delete_witness :
  let tasks := [sampleTask "a" "x" 0; sampleTask "b" "y" 0;
                sampleTask "c" "x" 2] in
  handleDeleteTask ("custom-" ++ numberToString 5)
    (handleSaveTask 5 (mkTaskData None "art" "colours" 0 None) tasks)
  = tasks.
Proof.
  apply (add_then_delete 5 (mkTaskData None "art" "colours" 0 None)
           [sampleTask "a" "x" 0; sampleTask "b" "y" 0;
            sampleTask "c" "x" 2]).
  - reflexivity.
  - sorted_by_eval.
  - simpl. intuition discriminate.
Defined.

(** ** Editing a task *)

Lemma map_unchanged {A : Type} (f : A -> A) (l : list A) :
  (forall x, In x l -> f x = x) -> map f l = l.
Proof.
  intros H. rewrite <- (map_id l) at 2. now apply map_ext_in.
Qed.

Lemma NoDup_ids_split (l1 l2 : list Task) (t : Task) :
  NoDup (map id (l1 ++ t :: l2)) ->
  forall x, In x (l1 ++ l2) -> id x <> id t.
Proof.
  intros Hnd x Hx E. rewrite map_app in Hnd. simpl in Hnd.
  apply NoDup_remove_2 in Hnd. apply Hnd. rewrite <- map_app, <- E.
  now apply in_map.
Qed.

Lemma handleSaveTask_edit (now : Z) (taskData : TaskData) (i : string)
  (tasks : list Task) :
  tdId taskData = Some i -> i <> "" ->
  handleSaveTask now taskData tasks
  = sortByDay
      (map (fun t => if String.eqb (id t) i then applyTaskData taskData i t
                     else t) tasks).
Proof.
  intros Hid Hne. unfold handleSaveTask. rewrite Hid.
  destruct i as [|c r]; [congruence | reflexivity].
Qed.

(** X13: saving the form of an existing task, ids being distinct,
    rewrites that task only: it takes the subject, topic and day of the
    form and keeps its id and its completion mark; the other tasks are
    untouched, and the list is sorted by day again. *)
Theorem save_existing_task (now : Z) (taskData : TaskData)
  (l1 l2 : list Task) (t : Task) :
  tdId taskData = Some (id t) -> id t <> "" ->
  NoDup (map id (l1 ++ t :: l2)) ->
  let edited :=
    mkTask (id t) (tdSubject taskData) (tdTopic taskData) (isCompleted t)
           (tdDayIndex taskData)
           (match tdColor taskData with Some c => c | None => color t end) in
  let result := handleSaveTask now taskData (l1 ++ t :: l2) in
  result = sortByDay (l1 ++ edited :: l2) /\
  StronglySorted dayLe result /\
  Permutation result (l1 ++ edited :: l2).
Proof.
  intros Hid Hne Hnd edited result.
  assert (E : result = sortByDay (l1 ++ edited :: l2)).
  { unfold result. rewrite (handleSaveTask_edit now taskData (id t)) by auto.
    f_equal. rewrite map_app. simpl. rewrite String.eqb_refl.
    change (applyTaskData taskData (id t) t) with edited.
    pose proof (NoDup_ids_split l1 l2 t Hnd) as Hother.
    rewrite !map_unchanged; [reflexivity | |].
    - intros x Hx. destruct (String.eqb (id x) (id t)) eqn:Ex; [|reflexivity].
      apply String.eqb_eq in Ex. exfalso. apply (Hother x); [|exact Ex].
      apply in_or_app. now right.
    - intros x Hx. destruct (String.eqb (id x) (id t)) eqn:Ex; [|reflexivity].
      apply String.eqb_eq in Ex. exfalso. apply (Hother x); [|exact Ex].
      apply in_or_app. now left. }
  rewrite E.
  conjs; [reflexivity | apply sortByDay_sorted | apply sortByDay_perm].
Qed.

Lemma save_existing_task_witness :
  let taskData := mkTaskData (Some "b") "art" "colours" 5 None in
  let edited := mkTask "b" "art" "colours" false 5 None in
  let result :=
    handleSaveTask 9 taskData
      ([sampleTask "a" "x" 0] ++ sampleTask "b" "y" 0
         :: [sampleTask "c" "x" 2]) in
  result = sortByDay ([sampleTask "a" "x" 0] ++ edited
                        :: [sampleTask "c" "x" 2]) /\
  StronglySorted dayLe result /\
  Permutation result ([sampleTask "a" "x" 0] ++ edited
                        :: [sampleTask "c" "x" 2]).
Proof.
  apply (save_existing_task 9 (mkTaskData (Some "b") "art" "colours" 5 None)
           [sampleTask "a" "x" 0] [sampleTask "c" "x" 2]
           (sampleTask "b" "y" 0)).
  - reflexivity.
  - discriminate.
  - repeat constructor; simpl; intuition discriminate.
Defined.

(** X14: saving the form of a task that is no longer in the list adds no
    task and changes none: the list is only sorted by day. *)
Theorem save_missing_task (now : Z) (taskData : TaskData) (i : string)
  (tasks : list Task) :
  tdId taskData = Some i -> i <> "" -> ~ In i (map id tasks) ->
  handleSaveTask now taskData tasks = sortByDay tasks /\
  Permutation (handleSaveTask now taskData tasks) tasks.
Proof.
  intros Hid Hne Hnot.
  assert (E : handleSaveTask now taskData tasks = sortByDay tasks).
  { rewrite (handleSaveTask_edit now taskData i) by auto. f_equal.
    apply map_unchanged. intros x Hx.
    destruct (String.eqb (id x) i) eqn:Ex; [|reflexivity].
    apply String.eqb_eq in Ex. exfalso. apply Hnot. rewrite <- Ex.
    now apply in_map. }
  split; [exact E|]. rewrite E. apply sortByDay_perm.
Qed.

Lemma save_missing_task_witness :
  handleSaveTask 9 (mkTaskData (Some "zz") "art" "colours" 5 None) sample
  = sortByDay sample /\
  Permutation
    (handleSaveTask 9 (mkTaskData (Some "zz") "art" "colours" 5 None) sample)
    sample.
Proof.
  apply (save_missing_task 9 (mkTaskData (Some "zz") "art" "colours" 5 None)
           "zz" sample).
  - reflexivity.
  - discriminate.
  - simpl. intuition discriminate.
Defined.

(** ** Swapping two tasks *)

Lemma assignedTo_perm (d : Z) (l1 l2 : list Task) :
  Permutation (map dayIndex l1) (map dayIndex l2) ->
  assignedTo d l1 = assignedTo d l2.
Proof.
  intros H. unfold assignedTo.
  assert (E : forall l, length (filter (fun t => dayIndex t =? d) l)
                        = length (filter (fun x => x =? d) (map dayIndex l))).
  { induction l as [|t l IH]; simpl; [reflexivity|].
    destruct (dayIndex t =? d); simpl; now rewrite IH. }
  rewrite !E. f_equal. apply Permutation_length.
  clear E. induction H; simpl.
  - reflexivity.
  - destruct (x =? d); [now constructor | assumption].
  - destruct (x =? d), (y =? d); try reflexivity. apply perm_swap.
  - etransitivity; eassumption.
Qed.

Lemma swap_map (a b : Task) (da db : Z) (l1 l2 l3 : list Task)
  (f : Task -> Task) :
  (forall x, id x <> id a -> id x <> id b -> f x = x) ->
  f a = setDay a db -> f b = setDay b da ->
  NoDup (map id (l1 ++ a :: l2 ++ b :: l3)) ->
  map f (l1 ++ a :: l2 ++ b :: l3)
  = l1 ++ setDay a db :: l2 ++ setDay b da :: l3.
Proof.
  intros Hf Ha Hb Hnd.
  pose proof (NoDup_ids_split l1 (l2 ++ b :: l3) a Hnd) as HnA.
  replace (l1 ++ a :: l2 ++ b :: l3) with ((l1 ++ a :: l2) ++ b :: l3) in Hnd
    by (now rewrite <- app_assoc).
  pose proof (NoDup_ids_split (l1 ++ a :: l2) l3 b Hnd) as HnB.
  rewrite map_app. simpl. rewrite map_app. simpl. rewrite Ha, Hb.
  rewrite !map_unchanged; [reflexivity | | |].
  - intros x Hx. apply Hf.
    + apply HnA. rewrite !in_app_iff. simpl. tauto.
    + apply HnB. rewrite !in_app_iff. tauto.
  - intros x Hx. apply Hf.
    + apply HnA. rewrite !in_app_iff. tauto.
    + apply HnB. rewrite !in_app_iff. simpl. tauto.
  - intros x Hx. apply Hf.
    + apply HnA. rewrite !in_app_iff. tauto.
    + apply HnB. rewrite !in_app_iff. tauto.
Qed.

Lemma perm_exchange {A : Type} (a b : A) (m r : list A) :
  Permutation (a :: m ++ b :: r) (b :: m ++ a :: r).
Proof.
  rewrite <- (Permutation_middle m r b), <- (Permutation_middle m r a).
  apply perm_swap.
Qed.

Lemma two_members_split (l : list Task) (a b : Task) :
  In a l -> In b l -> a <> b ->
  exists l1 l2 l3,
    l = l1 ++ a :: l2 ++ b :: l3 \/ l = l1 ++ b :: l2 ++ a :: l3.
Proof.
  intros Ha Hb Hne. apply in_split in Ha as (l1 & l2 & ->).
  apply in_app_or in Hb as [Hb|[Hb|Hb]]; [|congruence|].
  - apply in_split in Hb as (m1 & m2 & ->).
    exists m1, m2, l2. right. now rewrite <- app_assoc.
  - apply in_split in Hb as (m1 & m2 & ->).
    exists l1, m1, m2. now left.
Qed.

(** X15: the second click of a swap, on a list with distinct ids that
    holds both tasks, exchanges their days and nothing else: each of the
    two tasks is in the result with the day of the other, every day keeps
    its number of tasks, the tasks are the same up to their day, the
    result is ordered by day and the swap is over. *)
Theorem swap_exchanges_days (source targetTask : Task)
  (tasks : list Task) :
  NoDup (map id tasks) -> In source tasks -> In targetTask tasks ->
  id source <> id targetTask ->
  let result := handleSwap (Some source) targetTask tasks in
  snd result = None /\
  StronglySorted dayLe (fst result) /\
  In (setDay source (dayIndex targetTask)) (fst result) /\
  In (setDay targetTask (dayIndex source)) (fst result) /\
  Permutation (map erase (fst result)) (map erase tasks) /\
  forall d, assignedTo d (fst result) = assignedTo d tasks.
Proof.
  intros Hnd Hs Ht Hid result.
  set (f := fun t : Task =>
              if String.eqb (id t) (id source)
              then setDay t (dayIndex targetTask)
              else if String.eqb (id t) (id targetTask)
                   then setDay t (dayIndex source) else t).
  assert (Hres : fst result = sortByDay (map f tasks)) by reflexivity.
  assert (Hfs : f source = setDay source (dayIndex targetTask)).
  { unfold f. now rewrite String.eqb_refl. }
  assert (Hft : f targetTask = setDay targetTask (dayIndex source)).
  { unfold f. rewrite String.eqb_refl.
    destruct (String.eqb (id targetTask) (id source)) eqn:E; [|reflexivity].
    apply String.eqb_eq in E. congruence. }
  assert (Hfo : forall x, id x <> id source -> id x <> id targetTask ->
                          f x = x).
  { intros x H1 H2. unfold f.
    apply String.eqb_neq in H1, H2. now rewrite H1, H2. }
  assert (Herase : map erase (map f tasks) = map erase tasks).
  { rewrite map_map. apply map_ext. intros x. unfold f.
    destruct (String.eqb (id x) (id source)); [reflexivity|].
    now destruct (String.eqb (id x) (id targetTask)). }
  assert (Hdays : Permutation (map dayIndex (map f tasks))
                              (map dayIndex tasks)).
  { destruct (two_members_split tasks source targetTask Hs Ht
                ltac:(congruence)) as (l1 & l2 & l3 & [E|E]);
      rewrite E in Hnd |- *.
    - rewrite (swap_map source targetTask (dayIndex source)
                 (dayIndex targetTask) l1 l2 l3 f) by auto.
      rewrite !map_app. simpl. rewrite !map_app. simpl.
      apply Permutation_app_head, perm_exchange.
    - rewrite (swap_map targetTask source (dayIndex targetTask)
                 (dayIndex source) l1 l2 l3 f) by auto.
      rewrite !map_app. simpl. rewrite !map_app. simpl.
      apply Permutation_app_head, perm_exchange. }
  conjs.
  - reflexivity.
  - rewrite Hres. apply sortByDay_sorted.
  - rewrite Hres. eapply Permutation_in; [symmetry; apply sortByDay_perm|].
    rewrite <- Hfs. now apply in_map.
  - rewrite Hres. eapply Permutation_in; [symmetry; apply sortByDay_perm|].
    rewrite <- Hft. now apply in_map.
  - rewrite Hres, <- Herase. apply Permutation_map, sortByDay_perm.
  - intros d. rewrite Hres. apply assignedTo_perm.
    rewrite <- Hdays. apply Permutation_map, sortByDay_perm.
Qed.

Lemma swap_exchanges_days_witness :
  let result :=
    handleSwap (Some (sampleTask "t1" "math" 7)) (sampleTask "t3" "math" 0)
      sample in
  snd result = None /\
  StronglySorted dayLe (fst result) /\
  In (setDay (sampleTask "t1" "math" 7) 0) (fst result) /\
  In (setDay (sampleTask "t3" "math" 0) 7) (fst result) /\
  Permutation (map erase (fst result)) (map erase sample) /\
  forall d, assignedTo d (fst result) = assignedTo d sample.
Proof.
  apply (swap_exchanges_days (sampleTask "t1" "math" 7)
           (sampleTask "t3" "math" 0) sample).
  - repeat constructor; simpl; intuition discriminate.
  - simpl. auto.
  - simpl. auto.
  - discriminate.
Defined.

(** ** Reordering the tasks of a day *)

Lemma mapGet_mapSet (m : DayMap) (k k' : Z) (v : list Task) :
  mapGet (mapSet m k v) k' = if k =? k' then Some v else mapGet m k'.
Proof.
  induction m as [|[k0 v0] m IH]; simpl.
  - reflexivity.
  - destruct (Z.eqb_spec k0 k) as [->|Hne]; simpl.
    + now destruct (k =? k').
    + rewrite IH. destruct (Z.eqb_spec k0 k'), (Z.eqb_spec k k');
        try reflexivity. congruence.
Qed.

Lemma emptyDays_get (days : list Z) (m : DayMap) (k : Z) :
  mapGet (fold_left (fun g i => mapSet g i []) days m) k
  = if existsb (Z.eqb k) days then Some [] else mapGet m k.
Proof.
  revert m. induction days as [|i days IH]; intros m; simpl; [reflexivity|].
  rewrite IH, mapGet_mapSet, (Z.eqb_sym k i).
  destruct (existsb (Z.eqb k) days); [now rewrite orb_true_r|].
  now rewrite orb_false_r.
Qed.

Lemma grouped_get (selectedDay : Z) (tasks : list Task) (g : DayMap)
  (k : Z) :
  mapGet
    (fold_left
       (fun g t =>
          if dayIndex t =? selectedDay then g
          else match mapGet g (dayIndex t) with
               | Some list => mapSet g (dayIndex t) (list ++ [t])
               | None => g
               end) tasks g) k
  = match mapGet g k with
    | Some v =>
        Some (v ++ filter (fun t => onDay k t && negb (onDay selectedDay t))
                     tasks)
    | None => None
    end.
Proof.
  revert g. induction tasks as [|t tasks IH]; intros g; simpl.
  - destruct (mapGet g k); [now rewrite app_nil_r | reflexivity].
  - rewrite IH. unfold onDay at 3 4.
    destruct (Z.eqb_spec (dayIndex t) selectedDay) as [Hs|Hs].
    + rewrite andb_false_r. reflexivity.
    + rewrite andb_true_r.
      destruct (mapGet g (dayIndex t)) as [list|] eqn:Eg.
      * rewrite mapGet_mapSet.
        destruct (Z.eqb_spec (dayIndex t) k) as [<-|Hk].
        -- rewrite Eg, <- app_assoc. reflexivity.
        -- reflexivity.
      * destruct (Z.eqb_spec (dayIndex t) k) as [<-|Hk]; [|reflexivity].
        now rewrite Eg.
Qed.

Lemma fold_left_append {A : Type} (h : Z -> list A) (days : list Z)
  (acc : list A) :
  fold_left (fun acc i => acc ++ h i) days acc = acc ++ flat_map h days.
Proof.
  revert acc. induction days as [|i days IH]; intros acc; simpl.
  - now rewrite app_nil_r.
  - now rewrite IH, app_assoc.
Qed.

Lemma fold_days (m : DayMap) (days : list Z) (acc : list Task) :
  fold_left
    (fun newAllTasks i =>
       match mapGet m i with
       | Some dayTasks => newAllTasks ++ dayTasks
       | None => newAllTasks
       end) days acc
  = fold_left
      (fun newAllTasks i =>
         newAllTasks ++ match mapGet m i with
                        | Some dayTasks => dayTasks
                        | None => []
                        end) days acc.
Proof.
  revert acc. induction days as [|i days IH]; intros acc; simpl;
    [reflexivity|].
  rewrite IH. destruct (mapGet m i); [reflexivity | now rewrite app_nil_r].
Qed.

Lemma existsb_dayRange (totalDays i : Z) :
  In i (dayRange totalDays) -> existsb (Z.eqb i) (dayRange totalDays) = true.
Proof.
  intros H. apply existsb_exists. exists i. split; [exact H | apply Z.eqb_refl].
Qed.

(** What [handleReorder] computes: day after day, the new list for the
    selected day and the tasks of the state for every other day. *)
Lemma handleReorder_days (totalDays selectedDay : Z)
  (reorderedTasks tasks : list Task) :
  handleReorder totalDays selectedDay reorderedTasks tasks
  = flat_map (fun i => if i =? selectedDay then reorderedTasks
                       else filter (onDay i) tasks)
             (dayRange totalDays).
Proof.
  unfold handleReorder.
  set (grouped' := mapSet _ selectedDay reorderedTasks).
  rewrite fold_days, fold_left_append. simpl. apply flat_map_pointwise.
  intros i Hi. unfold grouped'.
  rewrite mapGet_mapSet, (Z.eqb_sym selectedDay i).
  destruct (Z.eqb_spec i selectedDay) as [E|E]; [reflexivity|].
  rewrite grouped_get, emptyDays_get, (existsb_dayRange _ _ Hi).
  simpl. apply filter_ext. intros t. unfold onDay.
  destruct (Z.eqb_spec (dayIndex t) i),
           (Z.eqb_spec (dayIndex t) selectedDay);
    simpl; try reflexivity. congruence.
Qed.

Lemma blocks_by_day (h : Z -> list Task) (n : nat) :
  (forall i, Forall (fun t => dayIndex t = i) (h i)) ->
  forall lo,
    let l := flat_map h (daysFrom lo n) in
    StronglySorted dayLe l /\
    Forall (fun t => lo <= dayIndex t < lo + Z.of_nat n) l /\
    forall i, filter (onDay i) l
              = if (lo <=? i) && (i <? lo + Z.of_nat n) then h i else [].
Proof.
  intros Hh. induction n as [|n IH]; intros lo l; unfold l;
    cbn [flat_map daysFrom].
  - conjs; [constructor | constructor |].
    intros i. destruct (Z.leb_spec lo i), (Z.ltb_spec i (lo + Z.of_nat 0));
      simpl; try reflexivity. lia.
  - destruct (IH (lo + 1)) as (Hs & Hr & Hv). conjs.
    + apply StronglySorted_app; [|exact Hs|].
      * now apply StronglySorted_same_day with (d := lo).
      * intros x y Hx Hy. specialize (Hh lo).
        rewrite Forall_forall in Hh, Hr.
        specialize (Hh x Hx). specialize (Hr y Hy). simpl in Hr.
        unfold dayLe. lia.
    + apply Forall_app. split.
      * eapply Forall_impl; [|apply (Hh lo)]. simpl. intros; lia.
      * eapply Forall_impl; [|exact Hr]. simpl. intros; lia.
    + intros i. rewrite filter_app, Hv.
      destruct (Z.eq_dec i lo) as [->|Hne].
      * rewrite filter_all.
        -- destruct (Z.leb_spec (lo + 1) lo); [lia|]. cbn [andb].
           rewrite app_nil_r.
           destruct (Z.leb_spec lo lo), (Z.ltb_spec lo (lo + Z.of_nat (S n)));
             cbn [andb]; try reflexivity; lia.
        -- intros x Hx. specialize (Hh lo). rewrite Forall_forall in Hh.
           unfold onDay. apply Z.eqb_eq. auto.
      * rewrite filter_none.
        -- cbn [app].
           destruct (Z.leb_spec (lo + 1) i), (Z.leb_spec lo i),
                    (Z.ltb_spec i (lo + 1 + Z.of_nat n)),
                    (Z.ltb_spec i (lo + Z.of_nat (S n)));
             cbn [andb]; try reflexivity; lia.
        -- intros x Hx. specialize (Hh lo). rewrite Forall_forall in Hh.
           unfold onDay. apply Z.eqb_neq. rewrite (Hh x Hx). congruence.
Qed.

Lemma onDay_filter_days (i : Z) (tasks : list Task) :
  Forall (fun t => dayIndex t = i) (filter (onDay i) tasks).
Proof.
  apply Forall_forall. intros t Ht. apply filter_In in Ht as [_ Ht].
  now apply Z.eqb_eq in Ht.
Qed.

(** X16: a reorder that hands over tasks of the selected day replaces the
    list of that day and nothing else: the list of every other day of the
    plan is as before, and the result is ordered by day. *)
Theorem reorder_changes_one_day (totalDays selectedDay : Z)
  (reorderedTasks tasks : list Task) :
  Forall (fun t => dayIndex t = selectedDay) reorderedTasks ->
  let result :=
    handleReorder totalDays selectedDay reorderedTasks tasks in
  StronglySorted dayLe result /\
  forall i, 0 <= i < totalDays ->
    filter (onDay i) result
    = if i =? selectedDay then reorderedTasks else filter (onDay i) tasks.
Proof.
  intros HR result. unfold result. rewrite handleReorder_days.
  destruct (blocks_by_day
              (fun i => if i =? selectedDay then reorderedTasks
                        else filter (onDay i) tasks)
              (Z.to_nat totalDays)) with (lo := 0) as (Hs & _ & Hv).
  { intros i. destruct (Z.eqb_spec i selectedDay) as [->|_];
      [exact HR | apply onDay_filter_days]. }
  split; [exact Hs|]. intros i Hi. unfold dayRange. rewrite Hv.
  destruct (Z.leb_spec 0 i), (Z.ltb_spec i (0 + Z.of_nat (Z.to_nat totalDays)));
    simpl; try reflexivity; lia.
Qed.

Lemma reorder_changes_one_day_witness :
  let result :=
    handleReorder 8 7 [sampleTask "t2" "art" 7; sampleTask "t1" "math" 7]
      sample in
  StronglySorted dayLe result /\
  forall i, 0 <= i < 8 ->
    filter (onDay i) result
    = if i =? 7 then [sampleTask "t2" "art" 7; sampleTask "t1" "math" 7]
      else filter (onDay i) sample.
Proof.
  apply (reorder_changes_one_day 8 7
           [sampleTask "t2" "art" 7; sampleTask "t1" "math" 7] sample).
  repeat constructor.
Defined.

Lemma inPlan_days (totalDays : Z) (tasks : list Task) :
  flat_map (fun i => filter (onDay i) tasks) (dayRange totalDays)
  = sortByDay (filter (inPlan totalDays) tasks).
Proof.
  set (l := sortByDay (filter (inPlan totalDays) tasks)).
  rewrite <- (days_concat (Z.to_nat totalDays) 0 l).
  - apply flat_map_pointwise. intros i Hi. apply dayRange_In in Hi.
    unfold l. rewrite sortByDay_onDay, filter_filter'.
    apply filter_ext. intros t. unfold inPlan, onDay.
    destruct (Z.eqb_spec (dayIndex t) i), (Z.leb_spec 0 (dayIndex t)),
             (Z.ltb_spec (dayIndex t) totalDays); simpl; try reflexivity; lia.
  - apply sortByDay_sorted.
  - eapply Permutation_Forall; [symmetry; apply sortByDay_perm|].
    apply Forall_forall. intros t Ht. apply filter_In in Ht as [_ Ht].
    unfold inPlan in Ht. apply andb_true_iff in Ht as [H1 H2].
    apply Z.leb_le in H1. apply Z.ltb_lt in H2. lia.
Qed.

Lemma flat_map_perm {A B : Type} (f g : A -> list B) (l : list A) :
  (forall x, Permutation (f x) (g x)) ->
  Permutation (flat_map f l) (flat_map g l).
Proof.
  intros H. induction l as [|a l IH]; simpl; [reflexivity|].
  now apply Permutation_app.
Qed.

(** X17: a reorder keeps the tasks whose day is a day of the plan and
    drops the others: when the new list for the selected day is a
    rearrangement of the tasks of that day, the result is a rearrangement
    of the tasks with a day in [0, totalDays), and of all tasks when
    there is no other. *)
Theorem reorder_keeps_plan_tasks (totalDays selectedDay : Z)
  (reorderedTasks tasks : list Task) :
  Permutation reorderedTasks (filter (onDay selectedDay) tasks) ->
  let result :=
    handleReorder totalDays selectedDay reorderedTasks tasks in
  Permutation result (filter (inPlan totalDays) tasks) /\
  Forall (fun t => 0 <= dayIndex t < totalDays) result /\
  (Forall (fun t => 0 <= dayIndex t < totalDays) tasks ->
   Permutation result tasks).
Proof.
  intros HR result.
  assert (Hp : Permutation result (filter (inPlan totalDays) tasks)).
  { unfold result. rewrite handleReorder_days.
    rewrite <- (sortByDay_perm (filter (inPlan totalDays) tasks)).
    rewrite <- inPlan_days. apply flat_map_perm. intros i.
    destruct (Z.eqb_spec i selectedDay) as [->|_]; [exact HR | reflexivity]. }
  conjs.
  - exact Hp.
  - eapply Permutation_Forall; [symmetry; exact Hp|].
    apply Forall_forall. intros t Ht. apply filter_In in Ht as [_ Ht].
    unfold inPlan in Ht. apply andb_true_iff in Ht as [H1 H2].
    apply Z.leb_le in H1. apply Z.ltb_lt in H2. lia.
  - intros Hall. rewrite Hp. rewrite filter_all; [reflexivity|].
    intros t Ht. rewrite Forall_forall in Hall. specialize (Hall t Ht).
    unfold inPlan. apply andb_true_iff. split;
      [apply Z.leb_le | apply Z.ltb_lt]; lia.
Qed.

Lemma reorder_keeps_plan_tasks_witness :
  let result :=
    handleReorder 4 7 [sampleTask "t2" "art" 7; sampleTask "t1" "math" 7]
      sample in
  Permutation result (filter (inPlan 4) sample) /\
  Forall (fun t => 0 <= dayIndex t < 4) result /\
  (Forall (fun t => 0 <= dayIndex t < 4) sample ->
   Permutation result sample).
Proof.
  apply (reorder_keeps_plan_tasks 4 7
           [sampleTask "t2" "art" 7; sampleTask "t1" "math" 7] sample).
  simpl. apply perm_swap.
Defined.

(** X18: on a list ordered by day whose days are days of the plan, a
    reorder that hands back the tasks of the selected day as they are
    gives the list back. *)
Theorem reorder_unchanged (totalDays selectedDay : Z) (tasks : list Task) :
  StronglySorted dayLe tasks ->
  Forall (fun t => 0 <= dayIndex t < totalDays) tasks ->
  handleReorder totalDays selectedDay (filter (onDay selectedDay) tasks)
    tasks
  = tasks.
Proof.
  intros Hs Hr. rewrite handleReorder_days.
  transitivity (flat_map (fun d => filter (onDay d) tasks)
                  (dayRange totalDays)).
  - apply flat_map_pointwise. intros i _.
    now destruct (Z.eqb_spec i selectedDay) as [->|_].
  - apply days_concat; [exact Hs|].
    eapply Forall_impl; [|exact Hr]. simpl. intros; lia.
Qed.

Lemma reorder_unchanged_witness :
  let tasks := [sampleTask "a" "x" 0; sampleTask "b" "y" 0;
                sampleTask "c" "x" 2] in
  handleReorder 3 0 (filter (onDay 0) tasks) tasks = tasks.
Proof.
  apply (reorder_unchanged 3 0
           [sampleTask "a" "x" 0; sampleTask "b" "y" 0;
            sampleTask "c" "x" 2]).
  - sorted_by_eval.
  - repeat constructor; simpl; lia.
Defined.

(** ** Generating the plan *)

Lemma plan_no_days (tasks : list Task) (totalDays : Z) :
  totalDays <= 0 -> distributeTasksSmartly tasks totalDays = [].
Proof.
  intros Hle.
  destruct (distributeTasksSmartly_facts tasks totalDays) as [_ Hr _ _].
  destruct (distributeTasksSmartly tasks totalDays) as [|t l];
    [reflexivity|].
  inversion Hr; subst. lia.
Qed.

Lemma uint_prefix_inj (d d' : Decimal.uint) (x y : string) :
  (NilEmpty.string_of_uint d ++ String "-" x
   = NilEmpty.string_of_uint d' ++ String "-" y)%string ->
  d = d'.
Proof.
  revert d'. induction d; destruct d'; simpl; intros H;
    try discriminate H; try reflexivity;
    injection H as H; f_equal; eauto.
Qed.

Lemma numberToString_nat (i : nat) :
  exists u, Z.to_int (Z.of_nat i) = Decimal.Pos u.
Proof.
  destruct (Z.of_nat i) eqn:E; simpl; eauto. lia.
Qed.

Lemma taskId_inj (i j : nat) (a b : Z) : taskId i a = taskId j b -> i = j.
Proof.
  unfold taskId. intros H. simpl in H. injection H as H.
  unfold numberToString in H at 1 3.
  destruct (numberToString_nat i) as (u & Hu).
  destruct (numberToString_nat j) as (u' & Hu').
  rewrite Hu, Hu' in H. simpl in H.
  apply uint_prefix_inj in H. subst u'.
  apply Nat2Z.inj. rewrite <- (DecimalZ.of_to (Z.of_nat i)),
                           <- (DecimalZ.of_to (Z.of_nat j)).
  now rewrite Hu, Hu'.
Qed.

Section Generate.

Variable fullCurriculum : list CurriculumItem.
Variable clock : nat -> Z.

Lemma newTasks_ids (l : list CurriculumItem) (k : nat) (x : string) :
  In x (map id (mapFrom (newTask clock) k l)) ->
  exists j, (k <= j)%nat /\ x = taskId j (clock j).
Proof.
  revert k. induction l as [|item l IH]; intros k; simpl; [tauto|].
  intros [<-|H].
  - exists k. split; [lia | reflexivity].
  - destruct (IH _ H) as (j & Hj & ->). exists j. split; [lia | reflexivity].
Qed.

Lemma newTasks_NoDup (l : list CurriculumItem) (k : nat) :
  NoDup (map id (mapFrom (newTask clock) k l)).
Proof.
  revert k. induction l as [|item l IH]; intros k; simpl; constructor.
  - intros H. apply newTasks_ids in H as (j & Hj & E).
    apply taskId_inj in E. lia.
  - apply IH.
Qed.

Lemma newTasks_items (l : list CurriculumItem) (k : nat) :
  map (fun t => (subject t, topic t)) (mapFrom (newTask clock) k l)
  = map (fun item => (itemSubject item, itemTopic item)) l /\
  length (mapFrom (newTask clock) k l) = length l /\
  Forall (fun t => isCompleted t = false /\ color t = None)
         (mapFrom (newTask clock) k l).
Proof.
  revert k. induction l as [|item l IH]; intros k; simpl.
  - conjs; [reflexivity | reflexivity | constructor].
  - destruct (IH (S k)) as (H1 & H2 & H3). conjs.
    + now rewrite H1.
    + now rewrite H2.
    + constructor; [split; reflexivity | exact H3].
Qed.

Lemma newTasks_ordinary (l : list CurriculumItem) (k : nat) :
  ordinaryItems l = true ->
  ordinarySubjects (mapFrom (newTask clock) k l) = true.
Proof.
  unfold ordinaryItems, ordinarySubjects.
  revert k. induction l as [|item l IH]; intros k; simpl; [reflexivity|].
  intros [H1 H2]%andb_true_iff. rewrite H1. simpl. now apply IH.
Qed.

Lemma generatePlan_unfold (totalDays : Z) (startDateStr : string) :
  generatePlan fullCurriculum clock totalDays startDateStr
  = distributeTasksSmartly (mapFrom (newTask clock) O fullCurriculum) totalDays.
Proof. reflexivity. Qed.

(** X19: the tasks of a generated plan have pairwise distinct ids,
    whatever the clock returns: the position in the curriculum is part of
    the id. *)
Theorem generatePlan_ids_distinct (totalDays : Z) (startDateStr : string) :
  NoDup (map id (generatePlan fullCurriculum clock totalDays startDateStr)).
Proof.
  rewrite generatePlan_unfold.
  set (allTasks := mapFrom (newTask clock) O fullCurriculum).
  pose proof (newTasks_NoDup fullCurriculum O) as Hnd. fold allTasks in Hnd.
  destruct (distributeTasksSmartly_facts allTasks totalDays)
    as [(left & Hq) _ _ _].
  pose proof (inv_perm _ _ _ Hq) as Hp.
  apply (Permutation_map id) in Hp.
  rewrite map_app, !id_erase in Hp.
  apply Permutation_sym in Hp.
  apply (Permutation_NoDup Hp) in Hnd.
  now apply NoDup_app_remove_r in Hnd.
Qed.

(** X20: for [totalDays > 0] and a curriculum in which no subject is
    the empty string or [__proto__], the generated plan holds every
    entry of the curriculum once, with its subject and topic: as many
    tasks as entries, none completed, none with a color, each on a day of
    the plan, in the order of the days. *)
Theorem generatePlan_contents (totalDays : Z) (startDateStr : string) :
  ordinaryItems fullCurriculum = true ->
  0 < totalDays ->
  let plan := generatePlan fullCurriculum clock totalDays startDateStr in
  Permutation (map (fun t => (subject t, topic t)) plan)
              (map (fun item => (itemSubject item, itemTopic item))
                   fullCurriculum) /\
  length plan = length fullCurriculum /\
  Forall (fun t => isCompleted t = false /\ color t = None /\
                   0 <= dayIndex t < totalDays) plan /\
  StronglySorted dayLe plan.
Proof.
  intros Hord Hpos plan. unfold plan. rewrite generatePlan_unfold.
  pose proof (newTasks_ordinary fullCurriculum O Hord) as Hord'.
  set (allTasks := mapFrom (newTask clock) O fullCurriculum) in *.
  destruct (newTasks_items fullCurriculum O) as (Hitems & Hlen & Hnew).
  fold allTasks in Hitems, Hlen, Hnew.
  pose proof (plan_perm allTasks totalDays Hord' Hpos) as Hperm.
  destruct (distributeTasksSmartly_facts allTasks totalDays)
    as [_ Hrange Hsorted _].
  set (p := distributeTasksSmartly allTasks totalDays) in *.
  conjs.
  - rewrite <- Hitems.
    replace (map (fun t => (subject t, topic t)) p)
      with (map (fun t => (subject t, topic t)) (map erase p))
      by (rewrite map_map; reflexivity).
    replace (map (fun t => (subject t, topic t)) allTasks)
      with (map (fun t => (subject t, topic t)) (map erase allTasks))
      by (rewrite map_map; reflexivity).
    now apply Permutation_map.
  - rewrite <- Hlen. apply Permutation_length in Hperm.
    now rewrite !length_map in Hperm.
  - apply Forall_forall. intros t Ht.
    rewrite Forall_forall in Hrange, Hnew.
    assert (He : In (erase t) (map erase allTasks)).
    { eapply Permutation_in; [exact Hperm|]. now apply in_map. }
    apply in_map_iff in He as (t0 & He & Ht0).
    destruct (Hnew t0 Ht0) as [Hc Hcol].
    assert (E1 : isCompleted t = isCompleted t0)
      by (change (isCompleted (erase t) = isCompleted (erase t0));
          now rewrite He).
    assert (E2 : color t = color t0)
      by (change (color (erase t) = color (erase t0)); now rewrite He).
    split; [congruence|]. split; [congruence|]. apply (Hrange t Ht).
  - exact Hsorted.
Qed.

(** X21: planning by tasks per day, with [tasksPerDay >= 1] and a
    curriculum in which no subject is the empty string or [__proto__]:
    the number of days is the ceiling of the entries over [tasksPerDay],
    every entry is planned, and every one of these days gets at least one
    task and at most [tasksPerDay]. *)
Theorem create_plan_by_tasks (tasksPerDay totalDays : Z)
  (startDate : string) :
  ordinaryItems fullCurriculum = true ->
  1 <= tasksPerDay ->
  let result :=
    handleCreatePlan fullCurriculum clock ByTasks tasksPerDay totalDays
      startDate in
  let n := Z.of_nat (length fullCurriculum) in
  snd result = ceilDiv n tasksPerDay /\
  length (fst result) = length fullCurriculum /\
  forall d, 0 <= d < snd result ->
    1 <= assignedTo d (fst result) <= tasksPerDay.
Proof.
  intros Hord Hp result n.
  unfold result, handleCreatePlan. simpl fst. simpl snd.
  fold n. rewrite generatePlan_unfold.
  pose proof (newTasks_ordinary fullCurriculum O Hord) as Hord'.
  set (allTasks := mapFrom (newTask clock) O fullCurriculum) in *.
  destruct (newTasks_items fullCurriculum O) as (_ & Hlen & _).
  fold allTasks in Hlen.
  set (D := ceilDiv n tasksPerDay).
  pose proof (ceilDiv_bounds n tasksPerDay ltac:(lia)) as HD. fold D in HD.
  conjs.
  - reflexivity.
  - destruct (Z_le_gt_dec D 0) as [Hle|Hgt].
    + rewrite plan_no_days by exact Hle. simpl. unfold n in *. nia.
    + rewrite <- Hlen.
      pose proof (plan_perm allTasks D Hord' ltac:(lia)) as Hperm.
      apply Permutation_length in Hperm. now rewrite !length_map in Hperm.
  - intros d Hd.
    destruct (share_bounds allTasks D d Hord' Hd) as [Hlow Hup].
    rewrite Hlen in Hup, Hlow. fold n in Hup, Hlow. split.
    + assert (1 <= n / D); [|lia].
      apply Z.div_le_lower_bound; nia.
    + assert (ceilDiv n D <= tasksPerDay); [|lia].
      pose proof (ceilDiv_bounds n D ltac:(lia)). nia.
Qed.

End Generate.

Lemma create_plan_by_tasks_witness :
  let curriculum := [mkItem "A" "a1"; mkItem "B" "b1"; mkItem "A" "a2";
                     mkItem "C" "c1"; mkItem "A" "a3"] in
  let result :=
    handleCreatePlan curriculum (fun _ => 1700000000000) ByTasks 2 60
      "2024-01-01" in
  let n := Z.of_nat (length curriculum) in
  snd result = ceilDiv n 2 /\
  length (fst result) = length curriculum /\
  forall d, 0 <= d < snd result -> 1 <= assignedTo d (fst result) <= 2.
Proof.
  apply (create_plan_by_tasks
           [mkItem "A" "a1"; mkItem "B" "b1"; mkItem "A" "a2";
            mkItem "C" "c1"; mkItem "A" "a3"]
           (fun _ => 1700000000000) 2 60 "2024-01-01");
    [reflexivity | lia].
Defined.

Lemma generatePlan_contents_witness :
  let curriculum := [mkItem "A" "a1"; mkItem "B" "b1"; mkItem "A" "a2"] in
  let plan := generatePlan curriculum (fun _ => 1700000000000) 2
                "2024-01-01" in
  Permutation (map (fun t => (subject t, topic t)) plan)
              (map (fun item => (itemSubject item, itemTopic item))
                   curriculum) /\
  length plan = length curriculum /\
  Forall (fun t => isCompleted t = false /\ color t = None /\
                   0 <= dayIndex t < 2) plan /\
  StronglySorted dayLe plan.
Proof.
  apply (generatePlan_contents
           [mkItem "A" "a1"; mkItem "B" "b1"; mkItem "A" "a2"]
           (fun _ => 1700000000000) 2 "2024-01-01");
    [reflexivity | lia].
Defined.

(** ** What the view by day shows in general *)


(** ** Redistributing *)



(** ** The rotation pointer *)

(** X23: the pointer never leaves the rotation: started inside, it is
    inside after any number of passes of the loop of a day, so that
    [balancedRotation[subjectPointer]] is always one of the subjects of
    the rotation. *)
Theorem pointer_in_rotation (tasks : list Task) (day dailyTarget : Z)
  (s : Loop) (n : nat) :
  let rot := balancedRotation tasks in
  0 <= subjectPointer s < Z.of_nat (length rot) ->
  let s' := passes n rot day dailyTarget s in
  0 <= subjectPointer s' < Z.of_nat (length rot) /\
  In (currentSubject rot s') rot.
Proof.
  intros rot Hs s'.
  assert (Hrot : rot <> []).
  { pose proof (balancedRotation_length tasks) as Hlen. fold rot in Hlen.
    destruct rot; simpl in Hlen; [lia | discriminate]. }
  assert (Hp : 0 <= subjectPointer s' < Z.of_nat (length rot)).
  { unfold s'. clear s'. revert s Hs. induction n as [|n IH]; intros s Hs.
    - exact Hs.
    - cbn [passes]. apply IH. now apply whileBody_pointer. }
  split; [exact Hp|]. unfold currentSubject. apply nth_In. lia.
Qed.

Lemma pointer_in_rotation_witness :
  let rot := balancedRotation sample in
  let s' := passes 9 rot 0 3 (startDay (mkAlloc (initQueues sample) [] 0)) in
  0 <= subjectPointer s' < Z.of_nat (length rot) /\
  In (currentSubject rot s') rot.
Proof.
  apply (pointer_in_rotation sample 0 3
           (startDay (mkAlloc (initQueues sample) [] 0)) 9).
  vm_compute. split; [discriminate | reflexivity].
Defined.

(** * What is kept of the input *)

Lemma filter_split {A : Type} (f : A -> bool) (l g1 g2 : list A) (a : A) :
  filter f l = g1 ++ a :: g2 ->
  exists l1 l2, l = l1 ++ a :: l2 /\ filter f l1 = g1 /\ filter f l2 = g2.
Proof.
  revert g1. induction l as [|x l IH]; intros g1; simpl.
  - destruct g1; discriminate.
  - destruct (f x) eqn:E.
    + destruct g1 as [|y g1]; simpl; intros [= -> H].
      * exists [], l. auto.
      * destruct (IH _ H) as (l1 & l2 & -> & H1 & H2).
        exists (y :: l1), l2. simpl. rewrite E, H1. auto.
    + intros H. destruct (IH _ H) as (l1 & l2 & -> & H1 & H2).
      exists (x :: l1), l2. simpl. rewrite E. auto.
Qed.

Lemma StronglySorted_app_r {A : Type} (R : A -> A -> Prop) (l1 l2 : list A) :
  StronglySorted R (l1 ++ l2) -> StronglySorted R l2.
Proof.
  induction l1 as [|a l1 IH]; simpl; [auto|].
  intros H. inversion H; auto.
Qed.

Lemma StronglySorted_order {A : Type} (R : A -> A -> Prop)
  (l1 l2 l3 : list A) (a b : A) :
  StronglySorted R (l1 ++ a :: l2 ++ b :: l3) -> R a b.
Proof.
  intros H. apply StronglySorted_app_r in H.
  inversion H as [|? ? _ Hf]; subst.
  rewrite Forall_forall in Hf. apply Hf.
  apply in_or_app. right. now left.
Qed.

(** X24: when no subject is the empty string or [__proto__] and
    [totalDays > 0], the plan holds exactly the tasks of the input (the
    same tasks up to their day, hence the same multiset of ids and the
    same number of tasks), and every task of the plan carries a day of
    the plan. *)
Theorem conservation_ordinary (tasks : list Task) (totalDays : Z) :
  ordinarySubjects tasks = true ->
  0 < totalDays ->
  let plan := distributeTasksSmartly tasks totalDays in
  Permutation (map id plan) (map id tasks) /\
  Permutation (map erase plan) (map erase tasks) /\
  length plan = length tasks /\
  Forall (fun t => 0 <= dayIndex t < totalDays) plan.
Proof.
  intros Hord Hpos plan.
  destruct (distributeTasksSmartly_ordinary tasks totalDays Hord Hpos)
    as (Hperm & _ & _).
  fold plan in Hperm. conjs.
  - rewrite <- (id_erase plan), <- (id_erase tasks).
    now apply Permutation_map.
  - exact Hperm.
  - apply Permutation_length in Hperm. now rewrite !length_map in Hperm.
  - apply distributeTasksSmartly_facts.
Qed.

Lemma conservation_ordinary_witness :
  let plan := distributeTasksSmartly sample 2 in
  Permutation (map id plan) (map id sample) /\
  Permutation (map erase plan) (map erase sample) /\
  length plan = length sample /\
  Forall (fun t => 0 <= dayIndex t < 2) plan.
Proof. apply (conservation_ordinary sample 2); [reflexivity | lia]. Defined.

(** X25: for every input, the plan holds tasks of the input only, each
    at most once: the plan and the tasks left in the queues are together
    the tasks of the input up to their day; so the plan is no longer
    than the input, and distinct ids stay distinct. *)
Theorem plan_within_input (tasks : list Task) (totalDays : Z) :
  let plan := distributeTasksSmartly tasks totalDays in
  (exists left,
     Permutation (map erase plan ++ map erase left) (map erase tasks)) /\
  (length plan <= length tasks)%nat /\
  (NoDup (map id tasks) -> NoDup (map id plan)).
Proof.
  intros plan.
  destruct (distributeTasksSmartly_facts tasks totalDays)
    as [(left & Hq) _ _ _].
  fold plan in Hq. pose proof (inv_perm _ _ _ Hq) as Hp. conjs.
  - now exists (flat left).
  - apply Permutation_length in Hp.
    rewrite length_app, !length_map in Hp. lia.
  - intros Hnd. apply (Permutation_map id) in Hp.
    rewrite map_app, !id_erase in Hp.
    apply Permutation_sym in Hp. apply (Permutation_NoDup Hp) in Hnd.
    now apply NoDup_app_remove_r in Hnd.
Qed.

(** X26: when no subject is the empty string or [__proto__] and
    [totalDays > 0]: if [A] precedes [B] in the input and both have the
    same subject, [A] precedes [B] in the plan and the day of [A] is at
    most the day of [B]. *)
Theorem subject_order_ordinary (tasks l1 l2 l3 : list Task) (A B : Task)
  (totalDays : Z) :
  ordinarySubjects tasks = true ->
  0 < totalDays ->
  tasks = l1 ++ A :: l2 ++ B :: l3 ->
  subject A = subject B ->
  exists p1 p2 p3 dayA dayB,
    distributeTasksSmartly tasks totalDays
    = p1 ++ setDay A dayA :: p2 ++ setDay B dayB :: p3 /\
    dayA <= dayB.
Proof.
  intros Hord Hpos Htasks Hsub.
  destruct (distributeTasksSmartly_ordinary tasks totalDays Hord Hpos)
    as (_ & Hfifo & _).
  pose proof (pf_sorted _ _ _ (distributeTasksSmartly_facts tasks totalDays))
    as Hsorted.
  set (plan := distributeTasksSmartly tasks totalDays) in *.
  set (k := subject A).
  pose proof (Hfifo k) as Hf.
  assert (HA : bySubject k A = true) by apply String.eqb_refl.
  assert (HB : bySubject k B = true).
  { unfold bySubject, k. rewrite Hsub. apply String.eqb_refl. }
  rewrite Htasks in Hf. rewrite filter_app in Hf. simpl in Hf.
  rewrite HA, filter_app in Hf. simpl in Hf. rewrite HB in Hf.
  rewrite map_app in Hf. simpl in Hf. rewrite map_app in Hf. simpl in Hf.
  apply map_eq_app in Hf as (g1 & g' & Hg & _ & Hg').
  apply map_eq_cons in Hg' as (A' & g'' & -> & HA' & Hg'').
  apply map_eq_app in Hg'' as (g2 & g3' & -> & _ & Hg3).
  apply map_eq_cons in Hg3 as (B' & g3 & -> & HB' & _).
  apply filter_split in Hg as (p1 & rest & Hplan & _ & Hrest).
  apply filter_split in Hrest as (p2 & p3 & -> & _ & _).
  apply erase_eq_setDay in HA', HB'.
  exists p1, p2, p3, (dayIndex A'), (dayIndex B').
  rewrite Hplan in Hsorted |- *. split.
  - now rewrite <- HA', <- HB'.
  - exact (StronglySorted_order _ _ _ _ _ _ Hsorted).
Qed.

Lemma subject_order_ordinary_witness :
  exists p1 p2 p3 dayA dayB,
    distributeTasksSmartly sample 2
    = p1 ++ setDay (sampleTask "t1" "math" 7) dayA
         :: p2 ++ setDay (sampleTask "t5" "math" 1) dayB :: p3 /\
    dayA <= dayB.
Proof.
  apply (subject_order_ordinary sample []
           [sampleTask "t2" "art" 7; sampleTask "t3" "math" 0;
            sampleTask "t4" "الكيمياء" 3] []).
  - reflexivity.
  - lia.
  - reflexivity.
  - reflexivity.
Defined.

(** X27: for every input and every subject, the tasks of the subject
    that are in the plan are the first tasks of that subject in the
    input, in the order of the input, and their days ascend: a task is
    planned only after all the tasks of its subject that precede it. *)
Theorem planned_tasks_are_first (tasks : list Task) (totalDays : Z)
  (k : string) :
  let plan := distributeTasksSmartly tasks totalDays in
  (exists later,
     map erase (filter (bySubject k) plan) ++ map erase later
     = map erase (filter (bySubject k) tasks)) /\
  StronglySorted dayLe (filter (bySubject k) plan).
Proof.
  intros plan.
  destruct (distributeTasksSmartly_facts tasks totalDays)
    as [(left & Hq) _ Hsorted _].
  fold plan in Hq, Hsorted. split.
  - exists (qOf left k). apply (inv_fifo _ _ _ Hq k).
  - now apply StronglySorted_filter.
Qed.
